(** * mcp-audio-analysis: the tool handlers of [server.py]

    A shallow embedding of [src/mcp_music_analysis/server.py] and the
    properties of its handlers.

    - Python floats and numpy [float64] scalars are IEEE-754 binary64
      values: [spec_float] of the Standard Library at precision 53 and
      maximal exponent 1024, with its correctly rounded operations.
    - The handlers run in a state-and-exception monad over a [world]:
      the file system, the temporary directory, the network (an oracle
      that answers the n-th GET) and the log of GETs issued.
    - What librosa computes from the samples (decoding, the constant-Q
      chromagram, the beat tracker) is a parameter of the development;
      what it computes from shapes and indices ([frames_to_time],
      [get_duration]) is written out. *)

From Stdlib Require Import ZArith Bool List Sorted SpecFloat Lia.
From stdpp Require Import gmap strings list.

Local Open Scope Z_scope.

(* ===================================================================== *)
(** ** IEEE-754 binary64 *)
(* ===================================================================== *)

Module Float64.

Definition prec : Z := 53.
Definition emax : Z := 1024.

Definition float := spec_float.

Definition zero : float := S754_zero false.
Definition nan : float := S754_nan.

(** [float(n)] for an integer [n]: the nearest binary64, ties to even. *)
Definition of_Z (n : Z) : float := binary_normalize prec emax n 0 false.

Definition add : float -> float -> float := SFadd prec emax.
Definition div : float -> float -> float := SFdiv prec emax.
Definition abs : float -> float := SFabs.
Definition ltb : float -> float -> bool := SFltb.
Definition leb : float -> float -> bool := SFleb.

(** [x >= y] is [y <= x]; false as soon as one side is a NaN. *)
Definition geb (x y : float) : bool := leb y x.

(** C's [!x]: true on both zeros, false on NaN. *)
Definition is_zero (x : float) : bool :=
  match x with
  | S754_zero _ => true
  | _ => false
  end.

Definition signbit (x : float) : bool :=
  match x with
  | S754_zero s | S754_infinity s | S754_finite s _ _ => s
  | S754_nan => false
  end.

(** C's [fmod]: the exact remainder of the truncated division, with the
    sign of [x]; NaN when [x] is infinite or [y] is zero. *)
Definition fmod (x y : float) : float :=
  match x, y with
  | S754_nan, _ | _, S754_nan => S754_nan
  | S754_infinity _, _ => S754_nan
  | _, S754_zero _ => S754_nan
  | S754_zero _, _ => x
  | S754_finite _ _ _, S754_infinity _ => x
  | S754_finite sx mx ex, S754_finite _ my ey =>
      let e := Z.min ex ey in
      let r := (Z.pos mx * 2 ^ (ex - e)) mod (Z.pos my * 2 ^ (ey - e)) in
      binary_normalize prec emax (cond_Zopp sx r) e sx
  end.

(** The literal [1e-2]: the binary64 nearest to one hundredth. *)
Definition lit_1e_2 : float := div (of_Z 1) (of_Z 100).

End Float64.

Import Float64.

(* ===================================================================== *)
(** ** numpy *)
(* ===================================================================== *)

(** [t % interval] in [get_chroma] has a numpy [float64] scalar on the
    left ([t] is an element of the array [time_seconds]), so the operator
    is numpy's remainder, [npy_remainder] over [npy_divmod]: [fmod]
    adjusted to the sign of the divisor.  On a zero divisor it returns
    what [fmod] returns, a NaN; it does not raise. *)
Definition np_remainder (a b : float) : float :=
  let mod_ := fmod a b in
  if is_zero b then mod_
  else if negb (is_zero mod_) then
    if negb (Bool.eqb (ltb b zero) (ltb mod_ zero)) then add mod_ b else mod_
  else S754_zero (signbit b).

(** A two-dimensional [ndarray] of float64: rectangular by construction. *)
Record ndarray2 := {
  shape0 : nat;
  shape1 : nat;
  item : nat -> nat -> float
}.

(** [np.arange(n)] *)
Definition np_arange (n : nat) : list nat := seq 0 n.

(* ===================================================================== *)
(** ** Python values, exceptions and the world *)
(* ===================================================================== *)

Definition bytes := list Byte.byte.

(** What [requests.get] can raise instead of answering. *)
Inductive transport_error :=
  | ConnectionError
  | ReadTimeout
  | MissingSchema.

Inductive exn :=
  | ValueError (msg : string)
  | ZeroDivisionError
  | IndexError
  | FileNotFoundError (path : string)
  | NoBackendError
  | PermissionError (path : string)
  | RequestException (e : transport_error).

Inductive result (A : Type) :=
  | Ok (a : A)
  | Raise (e : exn).
Arguments Ok {A} a.
Arguments Raise {A} e.

(** Python's own [float % float] ([float_rem] of CPython): the remainder
    of [np_remainder], except that a zero divisor raises.  It is the
    operator when the left operand is a Python [float]; in [get_chroma]
    the left operand is a [numpy.float64], whose [__mod__] is the one
    called. *)
Definition float_rem (v w : float) : result float :=
  if is_zero w then Raise ZeroDivisionError
  else
    let mod_ := fmod v w in
    if negb (is_zero mod_) then
      if negb (Bool.eqb (ltb w zero) (ltb mod_ zero)) then Ok (add mod_ w)
      else Ok mod_
    else Ok (S754_zero (signbit w)).

Record response := {
  status_code : Z;
  content : bytes
}.

Record world := {
  fs : gmap string bytes;
  writable : string -> bool;
  tempdir : string;
  net : nat -> string -> transport_error + response;
  requests_log : list string
}.

Definition M (A : Type) : Type := world -> result A * world.

Definition ret {A} (a : A) : M A := fun w => (Ok a, w).

Definition raise {A} (e : exn) : M A := fun w => (Raise e, w).

Definition bind {A B} (m : M A) (k : A -> M B) : M B :=
  fun w =>
    match m w with
    | (Ok a, w') => k a w'
    | (Raise e, w') => (Raise e, w')
    end.

Notation "x <- m ;; k" := (bind m (fun x => k))
  (at level 100, m at next level, right associativity).

(** A [for] loop over [l] that threads the loop state [s]. *)
Fixpoint for_in {A S} (l : list A) (body : A -> S -> M S) (s : S) : M S :=
  match l with
  | [] => ret s
  | a :: l' => s' <- body a s ;; for_in l' body s'
  end.

(** [enumerate(l)] *)
Definition enumerate {A} (l : list A) : list (nat * A) :=
  combine (seq 0 (length l)) l.

(** [a[i]] for a row index [i] *)
Definition getitem (a : ndarray2) (i : nat) : M (list float) :=
  if (i <? shape0 a)%nat then ret (map (item a i) (seq 0 (shape1 a)))
  else raise IndexError.

(* ===================================================================== *)
(** ** Strings and paths *)
(* ===================================================================== *)

Definition nl : string := String (Ascii.ascii_of_nat 10) EmptyString.

Fixpoint str_drop (n : nat) (s : string) : string :=
  match n, s with
  | O, _ => s
  | S n', String _ s' => str_drop n' s'
  | S _, EmptyString => EmptyString
  end.

Fixpoint str_take (n : nat) (s : string) : string :=
  match n, s with
  | O, _ => EmptyString
  | S n', String c s' => String c (str_take n' s')
  | S _, EmptyString => EmptyString
  end.

(** [s.endswith(suffix)]: the last [len(suffix)] characters of [s] are
    [suffix], character by character. *)
Definition endswith (s suffix : string) : bool :=
  (String.length suffix <=? String.length s)%nat
  && String.eqb (str_drop (String.length s - String.length suffix) s) suffix.

(** [s.startswith(prefix)] *)
Definition startswith (s prefix : string) : bool :=
  String.eqb (str_take (String.length prefix) s) prefix.

(** [os.path.join(a, b)] of posixpath *)
Definition os_path_join (a b : string) : string :=
  if startswith b "/" then b
  else if String.eqb a "" || endswith a "/" then a +:+ b
  else a +:+ "/" +:+ b.

(** [tempfile.gettempdir()] *)
Definition gettempdir : M string := fun w => (Ok (tempdir w), w).

(** [requests.get(url)]: the request is issued (logged) and the network
    answers or fails. *)
Definition requests_get (url : string) : M response :=
  fun w =>
    let w' := {| fs := fs w; writable := writable w; tempdir := tempdir w;
                 net := net w; requests_log := requests_log w ++ [url] |} in
    match net w (length (requests_log w)) url with
    | inr r => (Ok r, w')
    | inl e => (Raise (RequestException e), w')
    end.

(** [with open(path, "wb") as file: file.write(data)] *)
Definition write_file (path : string) (data : bytes) : M unit :=
  fun w =>
    if writable w path then
      (Ok tt, {| fs := <[path := data]> (fs w); writable := writable w;
                 tempdir := tempdir w; net := net w;
                 requests_log := requests_log w |})
    else (Raise (PermissionError path), w).

(* ===================================================================== *)
(** ** librosa and the tools *)
(* ===================================================================== *)

Definition signal := list float.

(** [librosa.frames_to_time(frames)] at the defaults [sr=22050],
    [hop_length=512]: [frames * 512 / float(22050)].  A frame is an index
    into an array that is in memory, so [frames * 512] stays far below
    the 63 bits of numpy's integers and is written without wrap-around. *)
Definition frames_to_time (frames : list nat) : list float :=
  map (fun f => div (of_Z (Z.of_nat f * 512)) (of_Z 22050)) frames.

(** [librosa.get_duration(y=y)] at the default [sr=22050]:
    [float(y.shape[-1]) / sr]; [y] is the mono signal, a list of samples. *)
Definition librosa_get_duration (y : signal) : float :=
  div (of_Z (Z.of_nat (length y))) (of_Z 22050).

Record chroma_sample := {
  note : string;
  time : float;
  amplitude : float
}.

Definition notes : list string :=
  ["C"; "C#"; "D"; "D#"; "E"; "F"; "F#"; "G"; "G#"; "A"; "A#"; "B"]%string.

Section Tools.

(** Decoding and resampling of a file's bytes from [offset] for
    [duration] seconds ([None]: to the end), or [None] when the bytes
    are not audio. *)
Variable audioread : bytes -> float -> option float -> option signal.

(** [librosa.feature.chroma_cqt(y=y, fmin=fmin, n_octaves=n_octaves)] *)
Variable chroma_cqt : signal -> option float -> Z -> ndarray2.

(** [librosa.beat.beat_track(y=y)]: the tempo and the beat frames. *)
Variable beat_track : signal -> float * list nat.

(** [librosa.load(path=file_path, offset=offset, duration=duration)] *)
Definition librosa_load (file_path : string) (offset : float)
    (duration : option float) : M signal :=
  fun w =>
    match fs w !! file_path with
    | None => (Raise (FileNotFoundError file_path), w)
    | Some data =>
        match audioread data offset duration with
        | Some y => (Ok y, w)
        | None => (Raise NoBackendError, w)
        end
    end.

Definition get_tempo (file_path : string) (offset : float)
    (duration : option float) : M float :=
  y <- librosa_load file_path offset duration ;;
  let '(tempo, _) := beat_track y in
  ret tempo.

Definition get_beats (file_path : string) (offset : float)
    (duration : option float) : M (list float) :=
  y <- librosa_load file_path offset duration ;;
  let '(tempo, frames) := beat_track y in
  let times := frames_to_time frames in
  ret times.

(** The condition of the [if] in [get_chroma]:
    [t >= offset and abs(t % interval) < 1e-2]. *)
Definition keep (offset interval t : float) : bool :=
  geb t offset && ltb (abs (np_remainder t interval)) lit_1e_2.

(** The inner [for] of [get_chroma]: one pass over
    [zip(time_seconds, chroma_cq[i])], appending to [data_list]. *)
Definition chroma_row (offset interval : float) (note_name : string)
    (time_seconds row : list float) (data_list : list chroma_sample)
    : list chroma_sample :=
  fold_left
    (fun data_list '(t, amplitude) =>
       if keep offset interval t
       then data_list ++
            [{| note := note_name; time := t; amplitude := amplitude |}]
       else data_list)
    (combine time_seconds row) data_list.

Definition get_chroma (file_path : string) (offset : float)
    (duration : option float) (fmin : option float) (n_octaves : Z)
    (interval : float) : M (list chroma_sample) :=
  y <- librosa_load file_path offset duration ;;
  let chroma_cq := chroma_cqt y fmin n_octaves in
  let time_frames := np_arange (shape1 chroma_cq) in
  let time_seconds := frames_to_time time_frames in
  for_in (enumerate notes)
    (fun '(i, note_name) data_list =>
       row <- getitem chroma_cq i ;;
       ret (chroma_row offset interval note_name time_seconds row data_list))
    [].

Definition get_duration (file_path : string) : M float :=
  y <- librosa_load file_path zero None ;;
  ret (librosa_get_duration y).

End Tools.

Definition download_from_url (url : string) : M string :=
  if negb (endswith url ".mp3") && negb (endswith url ".wav") then
    raise (ValueError ("URL: " +:+ url +:+ " is not a valid audio file"))
  else
    response <- requests_get url ;;
    if status_code response =? 200 then
      tmp <- gettempdir ;;
      let file_path := os_path_join tmp "downloaded_file" in
      _ <- write_file file_path (content response) ;;
      ret file_path
    else
      raise (ValueError ("Failed to download file from URL: " +:+ url)).

(* ===================================================================== *)
(** ** The tool registry and the prompt *)
(* ===================================================================== *)

(** A parameter of a handler's [def] line: name, annotation, default. *)
Record param := {
  p_name : string;
  p_type : string;
  p_default : option string
}.

(** A registered tool: the [def] line under an [@mcp.tool()]. *)
Record tool := {
  t_name : string;
  t_params : list param;
  t_return : string
}.

Definition render_param (p : param) : string :=
  match p_default p with
  | None => p_name p +:+ ": " +:+ p_type p
  | Some d => p_name p +:+ ": " +:+ p_type p +:+ " = " +:+ d
  end.

Fixpoint join (sep : string) (l : list string) : string :=
  match l with
  | [] => ""
  | [s] => s
  | s :: l' => s +:+ sep +:+ join sep l'
  end.

(** The signature of a tool as Python writes it. *)
Definition signature (t : tool) : string :=
  t_name t +:+ "(" +:+ join ", " (map render_param (t_params t)) +:+ ") -> "
  +:+ t_return t.

Definition p_file_path := {| p_name := "file_path"; p_type := "str"; p_default := None |}.
Definition p_offset := {| p_name := "offset"; p_type := "float"; p_default := Some "0.0"%string |}.
Definition p_duration := {| p_name := "duration"; p_type := "float"; p_default := Some "None"%string |}.

(** The six [@mcp.tool()] handlers, in the order of the file. *)
Definition tools : list tool :=
  [ {| t_name := "get_tempo";
       t_params := [p_file_path; p_offset; p_duration];
       t_return := "float" |};
    {| t_name := "get_beats";
       t_params := [p_file_path; p_offset; p_duration];
       t_return := "list" |};
    {| t_name := "get_chroma";
       t_params :=
         [p_file_path; p_offset; p_duration;
          {| p_name := "fmin"; p_type := "float"; p_default := Some "None"%string |};
          {| p_name := "n_octaves"; p_type := "int"; p_default := Some "7"%string |};
          {| p_name := "interval"; p_type := "float"; p_default := Some "1.0"%string |}];
       t_return := "list" |};
    {| t_name := "get_duration";
       t_params := [p_file_path];
       t_return := "float" |};
    {| t_name := "download_from_url";
       t_params := [{| p_name := "url"; p_type := "str"; p_default := None |}];
       t_return := "str" |};
    {| t_name := "download_from_youtube";
       t_params := [{| p_name := "youtube_url"; p_type := "str"; p_default := None |}];
       t_return := "str" |} ].

(** The string [analyze_audio] returns, literal by literal. *)
Definition prompt_text : string :=
  "Welcome to the Music Analysis MCP! Please provide "
  +:+ "the path to an audio file and call the tools listed below to extract "
  +:+ "various audio features." +:+ nl +:+ nl
  +:+ "Available tools:" +:+ nl
  +:+ "- get_tempo(file_path: str, offset: float = 0.0, duration: float = None) -> float" +:+ nl
  +:+ "- get_beats(file_path: str, offset: float = 0.0, duration: float = None) -> list" +:+ nl
  +:+ "- get_chroma(file_path: str, offset: float = 0.0, duration: float = None, fmin: float = None, n_octaves: int = 7, interval: float = 1.0) -> list" +:+ nl
  +:+ "- get_duration(file_path: str) -> float" +:+ nl
  +:+ "- download_from_url(url: str) -> str" +:+ nl
  +:+ "- download_from_youtube(youtube_url: str) -> str" +:+ nl.

Definition analyze_audio : M string := ret prompt_text.

(** The two [ValueError]s of [download_from_url], by their messages. *)
Definition validation_error (url : string) : exn :=
  ValueError ("URL: " +:+ url +:+ " is not a valid audio file").

Definition fetch_error (url : string) : exn :=
  ValueError ("Failed to download file from URL: " +:+ url).

(** The path [download_from_url] writes to. *)
Definition download_path (w : world) : string :=
  os_path_join (tempdir w) "downloaded_file".

(** [s] ends in [suffix]. *)
Definition has_suffix (suffix s : string) : Prop :=
  exists p : string, s = p +:+ suffix.

(** [sub] occurs in [s]. *)
Definition occurs_in (sub s : string) : Prop :=
  exists pre post : string, s = pre +:+ sub +:+ post.

(** The answer of the network to the next GET, if it answers. *)
Definition next_response (w : world) (url : string) : option response :=
  match net w (length (requests_log w)) url with
  | inr r => Some r
  | inl _ => None
  end.

(* ===================================================================== *)
(** ** The vocabulary of the statements *)
(* ===================================================================== *)

(** The time of frame [k] on librosa's default grid. *)
Definition frame_time (k : nat) : float :=
  div (of_Z (Z.of_nat k * 512)) (of_Z 22050).

(** The frames of [0 .. n-1] that pass the filter, in ascending order. *)
Definition kept_frames (offset interval : float) (n : nat) : list nat :=
  List.filter (fun k => keep offset interval (frame_time k)) (seq 0 n).

(** The sample of pitch class [i], named [note_name], at frame [k]. *)
Definition sample_at (c : ndarray2) (i : nat) (note_name : string) (k : nat)
    : chroma_sample :=
  {| note := note_name; time := frame_time k; amplitude := item c i k |}.

(** The output as the spec words it: for each pitch class in the order of
    [notes], the kept frames in ascending order. *)
Definition chroma_by_note (c : ndarray2) (offset interval : float)
    : list chroma_sample :=
  flat_map
    (fun '(i, note_name) =>
       map (sample_at c i note_name) (kept_frames offset interval (shape1 c)))
    (enumerate notes).

(** [a] is not later than [b]. *)
Definition time_le (a b : chroma_sample) : Prop :=
  leb (time a) (time b) = true.

Definition prompt_header : string :=
  "Welcome to the Music Analysis MCP! Please provide the path to an audio file and call the tools listed below to extract various audio features."
  +:+ nl +:+ nl +:+ "Available tools:" +:+ nl.

Definition prompt_line (t : tool) : string := "- " +:+ signature t +:+ nl.

Fixpoint str_concat (l : list string) : string :=
  match l with
  | [] => ""
  | s :: l' => s +:+ str_concat l'
  end.

(** Neither negative nor a NaN. *)
Definition nonneg (x : float) : Prop :=
  match x with
  | S754_zero s | S754_infinity s | S754_finite s _ _ => s = false
  | S754_nan => False
  end.

(* ===================================================================== *)
(** ** Rounding to binary64, in integers *)
(* ===================================================================== *)

(** [2^(e + 1074)]: the weight of exponent [e] on a scale where every
    exponent of binary64 has a non-negative power. *)
Definition weight (e : Z) : Z := 2 ^ (e + 1074).

(** The position of a scaled numerator [N] in the cell of width [W] that a
    shift record describes. *)
Definition cell (mrs : shr_record) (W N : Z) : Prop :=
  let m := shr_m mrs in
  0 <= m /\ m * W <= N < (m + 1) * W
  /\ match shr_r mrs, shr_s mrs with
     | false, false => N = m * W
     | false, true => m * W < N /\ 2 * N < (2 * m + 1) * W
     | true, false => 2 * N = (2 * m + 1) * W
     | true, true => (2 * m + 1) * W < 2 * N
     end.

(** The float of mantissa [m] and exponent [e], or the infinity past the
    largest exponent. *)
Definition fin_or_inf (m e : Z) : float :=
  if e <=? emax - prec then S754_finite false (Z.to_pos m) e
  else S754_infinity false.

(** The float with mantissa [m] in [2^52, 2^53] at exponent [e]; a
    mantissa of [2^53] is [2^52] one exponent higher. *)
Definition canon (m e : Z) : float :=
  if m =? 2 ^ 53 then fin_or_inf (2 ^ 52) (e + 1) else fin_or_inf m e.

(** [m * 2^e] is the rounding to nearest of the real [N / (D * 2^1074)],
    which lies in the binade of exponent [e]. *)
Definition rounded (D N m e : Z) : Prop :=
  -1074 <= e /\ 2 ^ 52 <= m <= 2 ^ 53
  /\ 2 ^ 52 * (D * weight e) <= N < 2 ^ 53 * (D * weight e)
  /\ - (D * weight e) <= 2 * (N - m * (D * weight e)) <= D * weight e.

(** The mantissa of [22050.0]. *)
Definition m22050 : positive := 6061057848115200.

(* ===================================================================== *)
(** ** Example data *)
(* ===================================================================== *)

(** A server that answers every GET with a 404 and an empty body. *)
Definition net_404 : nat -> string -> transport_error + response :=
  fun _ _ => inr {| status_code := 404; content := [] |}.

(** A server that answers the first GET with "RIFF" and the later ones
    with "ID3", both with status 200. *)
Definition net_two_bodies : nat -> string -> transport_error + response :=
  fun n _ =>
    match n with
    | O => inr {| status_code := 200;
                  content := [Byte.x52; Byte.x49; Byte.x46; Byte.x46] |}
    | _ => inr {| status_code := 200;
                  content := [Byte.x49; Byte.x44; Byte.x33] |}
    end.

Definition world_of (files : gmap string bytes)
    (server : nat -> string -> transport_error + response) : world :=
  {| fs := files; writable := fun _ => true; tempdir := "/tmp";
     net := server; requests_log := [] |}.

(** A world whose earlier download is still in place. *)
Definition world_404 : world :=
  world_of {[ "/tmp/downloaded_file"%string := [Byte.x01; Byte.x02] ]} net_404.

Definition world_two_bodies : world := world_of ∅ net_two_bodies.

(** The world after the first download of [world_two_bodies]. *)
Definition world_after_first : world :=
  {| fs := {[ "/tmp/downloaded_file"%string :=
                [Byte.x52; Byte.x49; Byte.x46; Byte.x46] ]};
     writable := fun _ => true; tempdir := "/tmp";
     net := net_two_bodies; requests_log := ["http://x/y.wav"%string] |}.

(** A decoder for the examples: one sample per byte, no audio in an empty
    file. *)
Definition audioread_bytes : bytes -> float -> option float -> option signal :=
  fun data _ _ =>
    match data with
    | [] => None
    | _ => Some (map (fun b => of_Z (Z.of_N (Byte.to_N b))) data)
    end.

(** A chromagram for the examples: twelve rows, one frame per sample. *)
Definition chroma_ramp : signal -> option float -> Z -> ndarray2 :=
  fun y _ _ =>
    {| shape0 := 12; shape1 := length y;
       item := fun i k => of_Z (Z.of_nat (i + k)) |}.

(** A world with an eight-byte file, hence eight frames. *)
Definition world_audio : world :=
  world_of {[ "/a.wav"%string := repeat Byte.x00 8 ]} net_404.

(** [0.02] *)
Definition lit_0_02 : float := div (of_Z 1) (of_Z 50).

(** A server that answers every GET with the same four bytes, status 200. *)
Definition net_same_body : nat -> string -> transport_error + response :=
  fun _ _ => inr {| status_code := 200;
                    content := [Byte.x52; Byte.x49; Byte.x46; Byte.x46] |}.

Definition world_same_body : world := world_of ∅ net_same_body.

(** [world_same_body] after one download. *)
Definition world_same_body_1 : world :=
  {| fs := {[ "/tmp/downloaded_file"%string :=
                [Byte.x52; Byte.x49; Byte.x46; Byte.x46] ]};
     writable := fun _ => true; tempdir := "/tmp";
     net := net_same_body; requests_log := ["http://x/y.wav"%string] |}.

(** [world_same_body] after two downloads. *)
Definition world_same_body_2 : world :=
  {| fs := {[ "/tmp/downloaded_file"%string :=
                [Byte.x52; Byte.x49; Byte.x46; Byte.x46] ]};
     writable := fun _ => true; tempdir := "/tmp";
     net := net_same_body;
     requests_log := ["http://x/y.wav"; "http://x/z.mp3"]%string |}.

(** A world with two files, of eight and of sixteen bytes. *)
Definition world_two_files : world :=
  world_of (<[ "/b.wav"%string := repeat Byte.x00 16 ]>
              {[ "/a.wav"%string := repeat Byte.x00 8 ]}) net_404.

(* ===================================================================== *)
(** ** Strings *)
(* ===================================================================== *)

Lemma str_length_app (p s : string) :
  String.length (p +:+ s) = (String.length p + String.length s)%nat.
Proof. induction p as [|c p IH]; simpl; [done | by rewrite IH]. Qed.

Lemma str_drop_app (p s : string) : str_drop (String.length p) (p +:+ s) = s.
Proof. induction p as [|c p IH]; simpl; auto. Qed.

Lemma str_take_drop (n : nat) (s : string) : str_take n s +:+ str_drop n s = s.
Proof.
  revert s; induction n as [|n IH]; intros [|c s]; simpl; auto.
  change (String c (str_take n s +:+ str_drop n s) = String c s).
  by rewrite IH.
Qed.

Lemma endswith_spec (s suffix : string) :
  endswith s suffix = true <-> has_suffix suffix s.
Proof.
  unfold endswith, has_suffix. rewrite andb_true_iff, String.eqb_eq. split.
  - intros [_ Hd].
    exists (str_take (String.length s - String.length suffix) s).
    pose proof (str_take_drop (String.length s - String.length suffix) s) as E.
    rewrite Hd in E. by symmetry.
  - intros [p ->]. rewrite str_length_app. split.
    + apply Nat.leb_le. lia.
    + replace (String.length p + String.length suffix - String.length suffix)%nat
        with (String.length p) by lia.
      apply str_drop_app.
Qed.

Lemma str_app_assoc (a b c : string) : (a +:+ b) +:+ c = a +:+ b +:+ c.
Proof.
  induction a as [|x a IH]; [done|].
  change (String x ((a +:+ b) +:+ c) = String x (a +:+ b +:+ c)).
  by rewrite IH.
Qed.

(* ===================================================================== *)
(** ** Signs in binary64 arithmetic *)
(* ===================================================================== *)

Lemma shr_1_nonneg (mrs : shr_record) : 0 <= shr_m mrs -> 0 <= shr_m (shr_1 mrs).
Proof.
  destruct mrs as [m r s]. simpl.
  destruct m as [|[p|p|]|p]; simpl; lia.
Qed.

Lemma iter_shr_1_nonneg (p : positive) (mrs : shr_record) :
  0 <= shr_m mrs -> 0 <= shr_m (SpecFloat.iter_pos shr_1 p mrs).
Proof.
  revert mrs. induction p as [p IH|p IH|]; intros mrs H; simpl.
  - by apply IH, IH, shr_1_nonneg.
  - by apply IH, IH.
  - by apply shr_1_nonneg.
Qed.

Lemma shr_fexp_nonneg (m e : Z) (l : location) :
  0 <= m -> 0 <= shr_m (shr_fexp prec emax m e l).1.
Proof.
  intros H. unfold shr_fexp, shr.
  assert (0 <= shr_m (shr_record_of_loc m l)) as H0.
  { by destruct l as [|[]]. }
  destruct (fexp prec emax (Zdigits2 m + e) - e) as [|p|p]; simpl; try done.
  by apply iter_shr_1_nonneg.
Qed.

Lemma round_nearest_even_nonneg (m : Z) (l : location) :
  0 <= m -> 0 <= round_nearest_even m l.
Proof.
  intros H. destruct l as [|[]]; simpl; try lia.
  destruct (Z.even m); lia.
Qed.

Lemma binary_round_aux_nonneg (m e : Z) (l : location) :
  0 <= m -> nonneg (binary_round_aux prec emax false m e l).
Proof.
  intros H. unfold binary_round_aux.
  pose proof (shr_fexp_nonneg m e l H) as H1.
  destruct (shr_fexp prec emax m e l) as [mrs' e'].
  pose proof (shr_fexp_nonneg _ e' loc_Exact
    (round_nearest_even_nonneg _ (loc_of_shr_record mrs') H1)) as H2.
  destruct (shr_fexp prec emax _ e' loc_Exact) as [mrs'' e''].
  simpl in H2. destruct (shr_m mrs'') as [|p|p]; simpl; try done.
  by destruct (e'' <=? emax - prec).
Qed.

Lemma of_Z_nonneg (n : Z) : 0 <= n -> nonneg (of_Z n).
Proof.
  intros H. unfold of_Z, binary_normalize.
  destruct n as [|p|p]; [done| |lia].
  unfold binary_round.
  destruct (shl_align p 0 _) as [mz ez]. by apply binary_round_aux_nonneg.
Qed.

Lemma div_nonneg (x : float) (my : positive) (ey : Z) :
  nonneg x -> nonneg (div x (S754_finite false my ey)).
Proof.
  destruct x as [s|s| |s mx ex]; simpl; try done; try (by intros ->).
  intros ->. unfold div, SFdiv. simpl xorb.
  unfold SFdiv_core_binary.
  set (e' := Z.min _ _). set (m' := match _ with Z0 => _ | _ => _ end).
  assert (0 <= m') as Hm'.
  { unfold m'. destruct (ex - ey - e') as [|p|p]; try lia.
    apply Z.shiftl_nonneg. lia. }
  pose proof (Z_div_mod m' (Z.pos my) ltac:(lia)) as Hd.
  destruct (Z.div_eucl m' (Z.pos my)) as [q r].
  apply binary_round_aux_nonneg. nia.
Qed.

Lemma geb_zero_nonneg (x : float) : nonneg x -> geb x zero = true.
Proof. destruct x as [s|s| |s m e]; simpl; try done; by intros ->. Qed.

Lemma librosa_get_duration_nonneg (y : signal) :
  geb (librosa_get_duration y) zero = true.
Proof.
  apply geb_zero_nonneg. unfold librosa_get_duration.
  change (of_Z 22050) with (S754_finite false 6061057848115200 (-38)).
  apply div_nonneg, of_Z_nonneg. lia.
Qed.

(* ===================================================================== *)
(** ** Rounding in binary64 arithmetic *)
(* ===================================================================== *)

(** A number of [d] binary digits lies in [2^(d-1), 2^d). *)
Lemma digits2_pos_bounds (p : positive) :
  2 ^ (Z.pos (digits2_pos p) - 1) <= Z.pos p < 2 ^ Z.pos (digits2_pos p).
Proof.
  induction p as [p IH|p IH|]; simpl digits2_pos; [| |simpl; lia].
  - rewrite Pos2Z.inj_succ.
    replace (Z.succ (Z.pos (digits2_pos p)) - 1) with (Z.succ (Z.pos (digits2_pos p) - 1)) by lia.
    rewrite !Z.pow_succ_r by lia. lia.
  - rewrite Pos2Z.inj_succ.
    replace (Z.succ (Z.pos (digits2_pos p)) - 1) with (Z.succ (Z.pos (digits2_pos p) - 1)) by lia.
    rewrite !Z.pow_succ_r by lia. lia.
Qed.

Lemma Zdigits2_bounds (m : Z) :
  0 < m -> 2 ^ (Zdigits2 m - 1) <= m < 2 ^ Zdigits2 m.
Proof. destruct m as [|p|p]; try lia. intros _. apply digits2_pos_bounds. Qed.

Lemma Zdigits2_unique (m d : Z) :
  2 ^ (d - 1) <= m < 2 ^ d -> 0 < d -> Zdigits2 m = d.
Proof.
  intros [Hl Hu] Hd.
  assert (0 < m) as Hm by (pose proof (Z.pow_pos_nonneg 2 (d - 1)); lia).
  destruct (Zdigits2_bounds m Hm) as [Hl' Hu'].
  assert (0 < Zdigits2 m) by (destruct m; simpl; lia).
  destruct (Z.lt_trichotomy (Zdigits2 m) d) as [H1|[H1|H1]]; [|done|].
  - assert (2 ^ Zdigits2 m <= 2 ^ (d - 1)) by (apply Z.pow_le_mono_r; lia). lia.
  - assert (2 ^ d <= 2 ^ (Zdigits2 m - 1)) by (apply Z.pow_le_mono_r; lia). lia.
Qed.

(** One shift to the right keeps the numerator in the cell of the record,
    now twice as wide: the round and sticky bits say where. *)
Lemma shr_1_cell (mrs : shr_record) (W N : Z) :
  0 < W -> cell mrs W N -> cell (shr_1 mrs) (2 * W) N.
Proof.
  destruct mrs as [m r s]. unfold cell. simpl. intros HW (Hm & Hc & Hp).
  destruct m as [|[p|p|]|p]; try lia; destruct r, s; simpl; nia.
Qed.

Lemma iter_shr_1_cell (p : positive) (mrs : shr_record) (W N : Z) :
  0 < W -> cell mrs W N ->
  cell (SpecFloat.iter_pos shr_1 p mrs) (2 ^ Z.pos p * W) N.
Proof.
  revert mrs W. induction p as [p IH|p IH|]; intros mrs W HW Hc; simpl SpecFloat.iter_pos.
  - replace (2 ^ Z.pos p~1 * W) with (2 ^ Z.pos p * (2 ^ Z.pos p * (2 * W))).
    + assert (0 < 2 ^ Z.pos p) by (apply Z.pow_pos_nonneg; lia).
      apply IH; [nia|]. apply IH; [lia|]. by apply shr_1_cell.
    + replace (Z.pos p~1) with (Z.pos p + Z.pos p + 1) by lia.
      rewrite !Z.pow_add_r by lia. change (2 ^ 1) with 2. lia.
  - replace (2 ^ Z.pos p~0 * W) with (2 ^ Z.pos p * (2 ^ Z.pos p * W)).
    + assert (0 < 2 ^ Z.pos p) by (apply Z.pow_pos_nonneg; lia).
      apply IH; [nia|]. by apply IH.
    + replace (Z.pos p~0) with (Z.pos p + Z.pos p) by lia.
      rewrite !Z.pow_add_r by lia. lia.
  - change (2 ^ 1) with 2. by apply shr_1_cell.
Qed.

(** Rounding to nearest even moves the mantissa by at most one and ends
    within half a cell of the numerator. *)
Lemma round_cell (mrs : shr_record) (W N : Z) :
  0 < W -> cell mrs W N ->
  let m_r := round_nearest_even (shr_m mrs) (loc_of_shr_record mrs) in
  shr_m mrs <= m_r <= shr_m mrs + 1 /\ - W <= 2 * (N - m_r * W) <= W.
Proof.
  destruct mrs as [m r s]. unfold cell. simpl. intros HW (Hm & Hc & Hp).
  destruct r, s; simpl; try nia.
  destruct (Z.even m); nia.
Qed.

Lemma fexp_normal (x : Z) : -1074 <= x - 53 -> fexp prec emax x = x - 53.
Proof. unfold fexp, SpecFloat.emin, prec, emax. lia. Qed.

(** [binary_round_aux] on a mantissa of at least 53 digits, in the normal
    range: the result is [canon m_r] at the exponent raised by the digits
    dropped, with [m_r] within half a unit of the numerator, which lies in
    the binade of that exponent. *)
Lemma binary_round_aux_spec (q e : Z) (l : location) (W N : Z) :
  0 < W -> 53 <= Zdigits2 q -> -1074 <= Zdigits2 q + e - 53 ->
  cell (shr_record_of_loc q l) W N ->
  exists m_r,
    2 ^ 52 <= m_r <= 2 ^ 53
    /\ - (2 ^ (Zdigits2 q - 53) * W)
       <= 2 * (N - m_r * (2 ^ (Zdigits2 q - 53) * W))
       <= 2 ^ (Zdigits2 q - 53) * W
    /\ 2 ^ 52 * (2 ^ (Zdigits2 q - 53) * W) <= N
       < 2 ^ 53 * (2 ^ (Zdigits2 q - 53) * W)
    /\ binary_round_aux prec emax false q e l
       = canon m_r (e + (Zdigits2 q - 53)).
Proof.
  intros HW Hd He Hc.
  set (j := Zdigits2 q - 53) in *.
  assert (0 < q) as Hq.
  { destruct Hc as (Hq & _).
    replace (shr_m (shr_record_of_loc q l)) with q in Hq by (by destruct l as [|[]]).
    destruct q; simpl in Hd; lia. }
  assert (0 <= j) as Hj by lia.
  assert (0 < 2 ^ j) as H2j by (apply Z.pow_pos_nonneg; lia).
  (* the first shift *)
  unfold binary_round_aux, shr_fexp.
  rewrite (fexp_normal (Zdigits2 q + e)) by lia.
  replace (Zdigits2 q + e - 53 - e) with j by lia.
  assert (exists mrs', shr (shr_record_of_loc q l) e j = (mrs', e + j)
                       /\ cell mrs' (2 ^ j * W) N) as (mrs' & -> & Hc').
  { unfold shr. destruct j as [|p|p] eqn:Ej; [| |lia].
    - eexists. split; [by rewrite Z.add_0_r|].
      change (2 ^ 0) with 1. by rewrite Z.mul_1_l.
    - eexists. split; [done|]. by apply iter_shr_1_cell. }
  (* the binade of N *)
  assert (2 ^ 52 * (2 ^ j * W) <= N < 2 ^ 53 * (2 ^ j * W)) as HN.
  { pose proof (Zdigits2_bounds q Hq) as [Hl Hu].
    replace (Zdigits2 q) with (53 + j) in Hu by lia.
    replace (Zdigits2 q - 1) with (52 + j) in Hl by lia.
    rewrite Z.pow_add_r in Hl, Hu by lia.
    destruct Hc as (_ & Hc & _).
    replace (shr_m (shr_record_of_loc q l)) with q in Hc by (by destruct l as [|[]]).
    nia. }
  set (W' := 2 ^ j * W) in *. assert (0 < W') as HW' by (unfold W'; nia).
  pose proof (round_cell mrs' W' N HW' Hc') as [Hmr Herr].
  set (m_r := round_nearest_even (shr_m mrs') (loc_of_shr_record mrs')) in *.
  assert (2 ^ 52 <= shr_m mrs' < 2 ^ 53) as Hm.
  { destruct Hc' as (_ & Hc' & _). nia. }
  exists m_r. split; [lia|]. split; [done|]. split; [done|].
  (* the second shift *)
  unfold canon. destruct (Z.eqb_spec m_r (2 ^ 53)) as [E|E].
  - rewrite E. change (Zdigits2 (2 ^ 53)) with 54.
    rewrite (fexp_normal (54 + (e + j))) by lia.
    replace (54 + (e + j) - 53 - (e + j)) with 1 by lia.
    simpl. reflexivity.
  - rewrite (Zdigits2_unique m_r 53) by (change (53 - 1) with 52; lia).
    rewrite (fexp_normal (53 + (e + j))) by lia.
    replace (53 + (e + j) - 53 - (e + j)) with 0 by lia.
    simpl. destruct m_r as [|p|p] eqn:Emr; try lia. reflexivity.
Qed.

Lemma weight_pos (e : Z) : -1074 <= e -> 0 < weight e.
Proof. intros H. apply Z.pow_pos_nonneg; lia. Qed.

Lemma weight_succ (e : Z) : -1074 <= e -> weight (e + 1) = 2 * weight e.
Proof.
  intros H. unfold weight.
  replace (e + 1 + 1074) with (Z.succ (e + 1074)) by lia.
  apply Z.pow_succ_r. lia.
Qed.

Lemma weight_lt (e1 e2 : Z) :
  -1074 <= e1 -> e1 < e2 -> 2 * weight e1 <= weight e2.
Proof.
  intros H1 H2. rewrite <- weight_succ by lia.
  unfold weight. apply Z.pow_le_mono_r; lia.
Qed.

Lemma canon_fin_or_inf (m e : Z) :
  canon m e = if m =? 2 ^ 53 then fin_or_inf (2 ^ 52) (e + 1) else fin_or_inf m e.
Proof. reflexivity. Qed.

(** The order of normal floats is the order of their values. *)
Lemma fin_or_inf_le (m1 e1 m2 e2 : Z) :
  2 ^ 52 <= m1 < 2 ^ 53 -> 2 ^ 52 <= m2 < 2 ^ 53 ->
  -1074 <= e1 -> -1074 <= e2 ->
  m1 * weight e1 <= m2 * weight e2 ->
  leb (fin_or_inf m1 e1) (fin_or_inf m2 e2) = true.
Proof.
  intros Hm1 Hm2 He1 He2 Hv.
  pose proof (weight_pos e1 He1) as Hw1. pose proof (weight_pos e2 He2) as Hw2.
  assert (e1 < e2 \/ e1 = e2 /\ m1 <= m2) as Hcase.
  { destruct (Z.lt_trichotomy e1 e2) as [H|[H|H]]; [by left| |].
    - right. split; [done|]. subst e2. nia.
    - pose proof (weight_lt e2 e1 He2 H). nia. }
  unfold fin_or_inf, leb, SFleb, SFcompare.
  destruct (Z.leb_spec e1 (emax - prec)), (Z.leb_spec e2 (emax - prec));
    try done.
  - destruct Hcase as [H1|[-> H1]].
    + apply Z.compare_lt_iff in H1. by rewrite H1.
    + rewrite Z.compare_refl, Pos.compare_cont_spec. simpl.
      destruct (Pos.compare_spec (Z.to_pos m1) (Z.to_pos m2)); try done. lia.
  - lia.
Qed.

Lemma canon_le (m1 e1 m2 e2 : Z) :
  2 ^ 52 <= m1 <= 2 ^ 53 -> 2 ^ 52 <= m2 <= 2 ^ 53 ->
  -1074 <= e1 -> -1074 <= e2 ->
  m1 * weight e1 <= m2 * weight e2 ->
  leb (canon m1 e1) (canon m2 e2) = true.
Proof.
  intros Hm1 Hm2 He1 He2 Hv. rewrite !canon_fin_or_inf.
  pose proof (weight_succ e1 He1). pose proof (weight_succ e2 He2).
  destruct (Z.eqb_spec m1 (2 ^ 53)) as [E1|E1],
           (Z.eqb_spec m2 (2 ^ 53)) as [E2|E2];
    apply fin_or_inf_le; lia.
Qed.

(** Rounding to nearest is monotone: a smaller numerator does not round to
    a larger value. *)
Lemma rounded_mono (D N1 m1 e1 N2 m2 e2 : Z) :
  0 < D -> rounded D N1 m1 e1 -> rounded D N2 m2 e2 -> N1 < N2 ->
  m1 * weight e1 <= m2 * weight e2.
Proof.
  intros HD (He1 & Hm1 & Hb1 & Hr1) (He2 & Hm2 & Hb2 & Hr2) HN.
  pose proof (weight_pos e1 He1) as Hw1. pose proof (weight_pos e2 He2) as Hw2.
  destruct (Z.lt_trichotomy e1 e2) as [H|[H|H]].
  - pose proof (weight_lt e1 e2 He1 H) as Hw.
    apply Z.le_trans with (2 ^ 53 * weight e1).
    { apply Z.mul_le_mono_nonneg_r; lia. }
    apply Z.le_trans with (2 ^ 52 * weight e2); [lia|].
    apply Z.mul_le_mono_nonneg_r; lia.
  - subst e2. apply Z.mul_le_mono_nonneg_r; [lia|].
    destruct (Z.le_gt_cases m1 m2) as [Hle|Hgt]; [done|exfalso].
    set (W := D * weight e1) in *.
    assert (0 < W) as HW by (unfold W; apply Z.mul_pos_pos; lia).
    assert ((m2 + 1) * W <= m1 * W) as Hmul
      by (apply Z.mul_le_mono_nonneg_r; lia).
    lia.
  - exfalso. pose proof (weight_lt e2 e1 He2 H) as Hw.
    assert (D * (2 * weight e2) <= D * weight e1) as Hmul
      by (apply Z.mul_le_mono_nonneg_l; lia).
    lia.
Qed.

Lemma weight_add (e j : Z) :
  -1074 <= e -> 0 <= j -> weight (e + j) = 2 ^ j * weight e.
Proof.
  intros He Hj. unfold weight.
  replace (e + j + 1074) with (j + (e + 1074)) by lia.
  apply Z.pow_add_r; lia.
Qed.

Lemma cell_exact (q W : Z) : 0 <= q -> 0 < W ->
  cell (shr_record_of_loc q loc_Exact) W (q * W).
Proof. intros Hq HW. unfold cell. simpl. lia. Qed.

Lemma cell_scale (mrs : shr_record) (W N c : Z) :
  0 < c -> cell mrs W N -> cell mrs (W * c) (N * c).
Proof.
  intros Hc (Hm & [Hl Hu] & Hp). unfold cell.
  split; [done|]. split.
  - rewrite !Z.mul_assoc. split.
    + by apply Z.mul_le_mono_nonneg_r; [lia|].
    + by apply Z.mul_lt_mono_pos_r.
  - rewrite !Z.mul_assoc. destruct (shr_r mrs), (shr_s mrs).
    + by apply Z.mul_lt_mono_pos_r.
    + by rewrite Hp.
    + destruct Hp as [Hp1 Hp2]. split; by apply Z.mul_lt_mono_pos_r.
    + by rewrite Hp.
Qed.

Lemma pos_iter_xO (p k : positive) :
  Z.pos (Pos.iter xO p k) = Z.pos p * 2 ^ Z.pos k.
Proof.
  induction k as [|k IH] using Pos.peano_ind.
  - simpl. lia.
  - rewrite Pos.iter_succ, Pos2Z.inj_xO, IH, Pos2Z.inj_succ, Z.pow_succ_r by lia.
    lia.
Qed.

Lemma Zdigits2_ge_53 (q : Z) : 2 ^ 52 <= q -> 53 <= Zdigits2 q.
Proof.
  intros Hq. destruct (Zdigits2_bounds q ltac:(lia)) as [_ Hu].
  destruct (Z.le_gt_cases 53 (Zdigits2 q)) as [H|H]; [done|exfalso].
  assert (0 <= Zdigits2 q) by (destruct q; simpl; lia).
  assert (2 ^ Zdigits2 q <= 2 ^ 52) by (apply Z.pow_le_mono_r; lia). lia.
Qed.

(** [float(n)] is the rounding of [n]. *)
Lemma of_Z_rounded (n : Z) :
  0 < n ->
  exists m e, -52 <= e /\ rounded 1 (n * weight 0) m e /\ of_Z n = canon m e.
Proof.
  intros Hn. destruct n as [|p|p]; try lia.
  unfold of_Z, binary_normalize, binary_round.
  pose proof (digits2_pos_bounds p) as [Hl Hu].
  set (d := Z.pos (digits2_pos p)) in *.
  rewrite (fexp_normal (d + 0)) by lia.
  unfold shl_align. rewrite Z.sub_0_r.
  destruct (d + 0 - 53) as [|k|k] eqn:Ek.
  - (* exactly 53 digits *)
    assert (Zdigits2 (Z.pos p) = 53) as Hd by (simpl; lia).
    destruct (binary_round_aux_spec (Z.pos p) 0 loc_Exact (weight 0)
                (Z.pos p * weight 0)) as (m & Hm & Herr & Hb & ->).
    { by apply weight_pos. } { lia. } { lia. }
    { apply cell_exact; [lia | by apply weight_pos]. }
    rewrite Hd in *. change (2 ^ (53 - 53)) with 1 in *.
    exists m, 0. split; [lia|]. split; [|by rewrite Z.add_0_r].
    unfold rounded. rewrite !Z.mul_1_l in *. lia.
  - (* more than 53 digits: the integer is rounded *)
    assert (Zdigits2 (Z.pos p) = 53 + Z.pos k) as Hd by (simpl; lia).
    destruct (binary_round_aux_spec (Z.pos p) 0 loc_Exact (weight 0)
                (Z.pos p * weight 0)) as (m & Hm & Herr & Hb & ->).
    { by apply weight_pos. } { lia. } { lia. }
    { apply cell_exact; [lia | by apply weight_pos]. }
    rewrite Hd in *. replace (53 + Z.pos k - 53) with (Z.pos k) in * by lia.
    exists m, (Z.pos k). split; [lia|]. split; [|done].
    unfold rounded. rewrite Z.mul_1_l.
    replace (weight (Z.pos k)) with (2 ^ Z.pos k * weight 0)
      by (rewrite <- (weight_add 0 (Z.pos k)) by lia; done).
    lia.
  - (* fewer than 53 digits: the integer is exact *)
    assert (Z.pos k = 53 - d) as Hk by lia.
    set (q := Z.pos (Pos.iter xO p k)).
    assert (q = Z.pos p * 2 ^ Z.pos k) as Hq by apply pos_iter_xO.
    assert (2 ^ 52 <= q < 2 ^ 53) as Hqb.
    { rewrite Hq.
      replace (2 ^ 52) with (2 ^ (d - 1) * 2 ^ Z.pos k)
        by (rewrite <- Z.pow_add_r by lia; f_equal; lia).
      replace (2 ^ 53) with (2 ^ d * 2 ^ Z.pos k)
        by (rewrite <- Z.pow_add_r by lia; f_equal; lia).
      assert (0 < 2 ^ Z.pos k) by (apply Z.pow_pos_nonneg; lia).
      split; [apply Z.mul_le_mono_nonneg_r | apply Z.mul_lt_mono_pos_r]; lia. }
    assert (Zdigits2 q = 53) as Hd
      by (apply Zdigits2_unique; [change (53 - 1) with 52|]; lia).
    destruct (binary_round_aux_spec q (Z.neg k) loc_Exact
                (weight (Z.neg k)) (q * weight (Z.neg k)))
      as (m & Hm & Herr & Hb & ->).
    { apply weight_pos. lia. } { lia. } { lia. }
    { apply cell_exact; [lia | apply weight_pos; lia]. }
    rewrite Hd in *. change (2 ^ (53 - 53)) with 1 in *.
    exists m, (Z.neg k). split; [lia|]. split; [|by rewrite Z.add_0_r].
    unfold rounded. rewrite !Z.mul_1_l in *.
    replace (Z.pos p * weight 0) with (q * weight (Z.neg k)); [lia|].
    rewrite Hq, <- Z.mul_assoc. f_equal. unfold weight.
    rewrite <- Z.pow_add_r by lia. f_equal. lia.
Qed.

Lemma of_Z_22050 : of_Z 22050 = S754_finite false m22050 (-38).
Proof. reflexivity. Qed.

(** [x / 22050.0] is the rounding of the quotient, for a normal [x >= 1]. *)
Lemma div_22050_rounded (mx : positive) (ex : Z) :
  2 ^ 52 <= Z.pos mx < 2 ^ 53 -> -52 <= ex ->
  exists m e,
    rounded (Z.pos m22050) (Z.pos mx * weight (ex + 38)) m e
    /\ div (S754_finite false mx ex) (S754_finite false m22050 (-38))
       = canon m e.
Proof.
  intros Hmx Hex. unfold div, SFdiv, SFdiv_core_binary. simpl xorb.
  rewrite (Zdigits2_unique (Z.pos mx) 53)
    by (change (53 - 1) with 52; lia).
  change (Zdigits2 (Z.pos m22050)) with 53.
  replace (53 + ex - (53 + -38)) with (ex + 38) by lia.
  rewrite (fexp_normal (ex + 38)) by lia.
  replace (Z.min (ex + 38 - 53) (ex - -38)) with (ex - 15) by lia.
  replace (ex - -38 - (ex - 15)) with 53 by lia.
  rewrite Z.shiftl_mul_pow2 by lia.
  pose proof (Z_div_mod (Z.pos mx * 2 ^ 53) (Z.pos m22050) ltac:(lia)) as Hdiv.
  destruct (Z.div_eucl (Z.pos mx * 2 ^ 53) (Z.pos m22050)) as [q r].
  destruct Hdiv as [Hqr Hr].
  assert (2 ^ 52 <= q) as Hq by (unfold m22050 in *; lia).
  pose proof (Zdigits2_ge_53 q Hq) as Hd.
  assert (0 < weight (ex - 15)) as Hw by (apply weight_pos; lia).
  destruct (binary_round_aux_spec q (ex - 15) (new_location (Z.pos m22050) r)
              (Z.pos m22050 * weight (ex - 15))
              (Z.pos mx * weight (ex + 38)))
    as (m & Hm & Herr & Hb & ->).
  { lia. } { done. } { lia. }
  { replace (Z.pos mx * weight (ex + 38))
      with ((Z.pos m22050 * q + r) * weight (ex - 15)).
    - apply cell_scale; [done|].
      unfold new_location. change (Z.even (Z.pos m22050)) with true. cbv iota.
      unfold new_location_even, cell.
      destruct (Z.eqb_spec r 0) as [->|Hr0]; simpl; [lia|].
      destruct (Z.compare_spec (2 * r) (Z.pos m22050)); simpl; lia.
    - rewrite <- Hqr, <- Z.mul_assoc. f_equal.
      replace (ex + 38) with (ex - 15 + 53) by lia.
      rewrite weight_add by lia. done. }
  set (j := Zdigits2 q - 53) in *.
  exists m, (ex - 15 + j). split; [|done].
  unfold rounded. rewrite weight_add by lia.
  replace (Z.pos m22050 * (2 ^ j * weight (ex - 15)))
    with (2 ^ j * (Z.pos m22050 * weight (ex - 15))) by lia.
  repeat split; lia.
Qed.

(** What [canon] returns: a normal float or the infinity. *)
Lemma canon_cases (m e : Z) :
  2 ^ 52 <= m <= 2 ^ 53 ->
  canon m e = S754_infinity false
  \/ exists (m' : positive) (e' : Z),
       canon m e = S754_finite false m' e'
       /\ 2 ^ 52 <= Z.pos m' < 2 ^ 53 /\ e <= e' <= e + 1.
Proof.
  intros Hm. unfold canon, fin_or_inf.
  destruct (Z.eqb_spec m (2 ^ 53)) as [E|E].
  - destruct (e + 1 <=? emax - prec); [right|by left].
    eexists _, _. split; [done|]. simpl. lia.
  - destruct (e <=? emax - prec); [right|by left].
    exists (Z.to_pos m), e. split; [done|]. rewrite Z2Pos.id; lia.
Qed.

Lemma canon_le_infinity (m e : Z) :
  leb (canon m e) (S754_infinity false) = true.
Proof.
  unfold canon, fin_or_inf.
  by destruct (m =? 2 ^ 53), (e + 1 <=? emax - prec), (e <=? emax - prec).
Qed.

(** Two normal floats in order are equal or strictly ordered in value. *)
Lemma leb_finite_strict (m1 m2 : positive) (e1 e2 : Z) :
  2 ^ 52 <= Z.pos m1 < 2 ^ 53 -> 2 ^ 52 <= Z.pos m2 < 2 ^ 53 ->
  -52 <= e1 -> -52 <= e2 ->
  leb (S754_finite false m1 e1) (S754_finite false m2 e2) = true ->
  (m1 = m2 /\ e1 = e2)
  \/ Z.pos m1 * weight (e1 + 38) < Z.pos m2 * weight (e2 + 38).
Proof.
  intros Hm1 Hm2 He1 He2. unfold leb, SFleb, SFcompare.
  destruct (Z.compare_spec e1 e2) as [->|Hlt|Hgt]; [| |done].
  - rewrite Pos.compare_cont_spec. simpl.
    destruct (Pos.compare_spec m1 m2) as [->|Hlt|Hgt]; [by left| |done].
    intros _. right. apply Z.mul_lt_mono_pos_r; [apply weight_pos|]; lia.
  - intros _. right.
    pose proof (weight_lt (e1 + 38) (e2 + 38) ltac:(lia) ltac:(lia)) as Hw.
    pose proof (weight_pos (e1 + 38) ltac:(lia)) as Hw1.
    apply Z.lt_le_trans with (2 ^ 53 * weight (e1 + 38)).
    { apply Z.mul_lt_mono_pos_r; lia. }
    apply Z.le_trans with (2 ^ 52 * weight (e2 + 38)); [lia|].
    apply Z.mul_le_mono_nonneg_r; lia.
Qed.

(** Division by [22050.0] is monotone on what [float(n)] returns. *)
Lemma div_22050_mono (m1 e1 m2 e2 : Z) :
  2 ^ 52 <= m1 <= 2 ^ 53 -> 2 ^ 52 <= m2 <= 2 ^ 53 -> -52 <= e1 -> -52 <= e2 ->
  leb (canon m1 e1) (canon m2 e2) = true ->
  leb (div (canon m1 e1) (S754_finite false m22050 (-38)))
      (div (canon m2 e2) (S754_finite false m22050 (-38))) = true.
Proof.
  intros Hm1 Hm2 He1 He2.
  destruct (canon_cases m1 e1 Hm1) as [->|(p1 & x1 & -> & Hp1 & Hx1)],
           (canon_cases m2 e2 Hm2) as [->|(p2 & x2 & -> & Hp2 & Hx2)];
    try done.
  - intros _.
    destruct (div_22050_rounded p1 x1 Hp1 ltac:(lia)) as (m & e & _ & ->).
    apply canon_le_infinity.
  - intros Hle.
    destruct (leb_finite_strict p1 p2 x1 x2 Hp1 Hp2 ltac:(lia) ltac:(lia) Hle)
      as [[-> ->]|Hlt].
    + (* the same dividend: the same quotient *)
      destruct (div_22050_rounded p2 x2 Hp2 ltac:(lia))
        as (n & y & (Hy & Hn & _) & ->).
      by apply canon_le.
    + destruct (div_22050_rounded p1 x1 Hp1 ltac:(lia))
        as (n1 & y1 & Hr1 & ->).
      destruct (div_22050_rounded p2 x2 Hp2 ltac:(lia))
        as (n2 & y2 & Hr2 & ->).
      pose proof Hr1 as (Hy1 & Hn1 & _). pose proof Hr2 as (Hy2 & Hn2 & _).
      apply canon_le; try done.
      eapply rounded_mono; [|exact Hr1|exact Hr2|exact Hlt]. lia.
Qed.

(** Later frames are not earlier in time: [k * 512 / 22050.0] is monotone
    in [k], roundings included. *)
Lemma frame_time_mono (k1 k2 : nat) :
  (k1 <= k2)%nat -> leb (frame_time k1) (frame_time k2) = true.
Proof.
  intros Hk. unfold frame_time. rewrite of_Z_22050.
  destruct (Nat.eq_dec k1 0%nat) as [->|Hk1].
  - (* frame 0 is at time zero *)
    change (div (of_Z (Z.of_nat 0%nat * 512)) (S754_finite false m22050 (-38)))
      with (S754_zero false).
    destruct (Nat.eq_dec k2 0%nat) as [->|Hk2]; [done|].
    destruct (of_Z_rounded (Z.of_nat k2 * 512) ltac:(lia))
      as (m & e & He & (_ & Hm & _) & ->).
    destruct (canon_cases m e Hm) as [->|(p & x & -> & Hp & Hx)]; [done|].
    destruct (div_22050_rounded p x Hp ltac:(lia)) as (n & y & (_ & Hn & _) & ->).
    by destruct (canon_cases n y Hn) as [->|(p' & x' & -> & _)].
  - destruct (Nat.eq_dec k1 k2) as [->|Hne].
    + (* the same frame *)
      destruct (of_Z_rounded (Z.of_nat k2 * 512) ltac:(lia))
        as (m & e & He & (_ & Hm & _) & ->).
      apply div_22050_mono; try done. apply canon_le; lia.
    + destruct (of_Z_rounded (Z.of_nat k1 * 512) ltac:(lia))
        as (m1 & e1 & He1 & Hr1 & ->).
      destruct (of_Z_rounded (Z.of_nat k2 * 512) ltac:(lia))
        as (m2 & e2 & He2 & Hr2 & ->).
      pose proof Hr1 as (_ & Hm1 & _). pose proof Hr2 as (_ & Hm2 & _).
      apply div_22050_mono; try done.
      apply canon_le; try lia.
      eapply rounded_mono; [|exact Hr1|exact Hr2|]; [lia|].
      apply Z.mul_lt_mono_pos_r; [apply weight_pos|]; lia.
Qed.


(* ===================================================================== *)
(** ** The two remainders *)
(* ===================================================================== *)

(** [5.5 % 2 = 1.5], [-1 % 3 = 2], [1 % -3 = -2], [-0.0 % 1 = 0.0], and
    [0.1 % 0.01], which is not zero: the binary64 nearest to one tenth is
    a little more than ten times the one nearest to one hundredth. *)
Example np_remainder_values :
  np_remainder (div (of_Z 11) (of_Z 2)) (of_Z 2) = div (of_Z 3) (of_Z 2)
  /\ np_remainder (of_Z (-1)) (of_Z 3) = of_Z 2
  /\ np_remainder (of_Z 1) (of_Z (-3)) = of_Z (-2)
  /\ np_remainder (S754_zero true) (of_Z 1) = zero
  /\ np_remainder (div (of_Z 1) (of_Z 10)) lit_1e_2
     = S754_finite false 4503599627370496 (-110).
Proof. vm_compute. repeat split. Qed.

(** The literal [1e-2] is [0x3F847AE147AE147B]. *)
Example lit_1e_2_bits :
  lit_1e_2 = S754_finite false 5764607523034235 (-59)
  /\ 5764607523034235 = 0x147AE147AE147B /\ -59 = 0x3F8 - 1023 - 52.
Proof. vm_compute. repeat split. Qed.

(** Off a zero divisor numpy's remainder is Python's. *)
Lemma float_rem_np_remainder (v w : float) :
  is_zero w = false -> float_rem v w = Ok (np_remainder v w).
Proof.
  intros Hw. unfold float_rem, np_remainder. rewrite Hw.
  destruct (negb (is_zero (fmod v w))); [|done].
  by destruct (negb (Bool.eqb (ltb w zero) (ltb (fmod v w) zero))).
Qed.

(** On a zero divisor Python raises and numpy returns a NaN. *)
Lemma remainder_by_zero (v w : float) :
  is_zero w = true ->
  float_rem v w = Raise ZeroDivisionError /\ np_remainder v w = nan.
Proof.
  intros Hw. unfold float_rem, np_remainder. rewrite Hw. split; [done|].
  destruct w; try discriminate Hw. by destruct v.
Qed.

(* ===================================================================== *)
(** ** download_from_url *)
(* ===================================================================== *)

(** The extension check of [download_from_url], as a proposition. *)
Lemma extension_check (url : string) :
  negb (endswith url ".mp3") && negb (endswith url ".wav") = true
  <-> ~ (has_suffix ".mp3" url \/ has_suffix ".wav" url).
Proof.
  rewrite andb_true_iff, !negb_true_iff, <- !endswith_spec.
  destruct (endswith url ".mp3"), (endswith url ".wav"); intuition congruence.
Qed.

Lemma download_rejected (url : string) (w : world) :
  ~ (has_suffix ".mp3" url \/ has_suffix ".wav" url) ->
  download_from_url url w = (Raise (validation_error url), w).
Proof.
  intros H. apply extension_check in H. unfold download_from_url.
  by rewrite H.
Qed.

(** Past the extension check, one GET is issued and its outcome decides
    the rest. *)
Lemma download_accepted (url : string) (w : world) :
  has_suffix ".mp3" url \/ has_suffix ".wav" url ->
  let w1 := {| fs := fs w; writable := writable w; tempdir := tempdir w;
               net := net w; requests_log := requests_log w ++ [url] |} in
  download_from_url url w =
    match net w (length (requests_log w)) url with
    | inl e => (Raise (RequestException e), w1)
    | inr r =>
        if status_code r =? 200 then
          if writable w (download_path w) then
            (Ok (download_path w),
             {| fs := <[download_path w := content r]> (fs w);
                writable := writable w; tempdir := tempdir w; net := net w;
                requests_log := requests_log w ++ [url] |})
          else (Raise (PermissionError (download_path w)), w1)
        else (Raise (fetch_error url), w1)
    end.
Proof.
  intros H w1.
  assert (Hc : negb (endswith url ".mp3") && negb (endswith url ".wav") = false).
  { destruct (negb (endswith url ".mp3") && negb (endswith url ".wav")) eqn:E;
      [|done]. apply extension_check in E. tauto. }
  unfold download_from_url. rewrite Hc.
  unfold bind, requests_get.
  destruct (net w (length (requests_log w)) url) as [e|r]; [done|].
  destruct (status_code r =? 200); [|done].
  unfold gettempdir, write_file, download_path; simpl.
  by destruct (writable w (os_path_join (tempdir w) "downloaded_file")).
Qed.

Lemma fetch_error_not_validation (url url' : string) :
  fetch_error url <> validation_error url'.
Proof.
  unfold fetch_error, validation_error. intros H. injection H as H.
  cbv [String.append] in H. discriminate H.
Qed.

(** Whatever [download_from_url] raises, it has written nothing. *)
Lemma download_raise_fs (url : string) (w : world) (e : exn) :
  (download_from_url url w).1 = Raise e ->
  fs (download_from_url url w).2 = fs w.
Proof.
  destruct (decide (endswith url ".mp3" = true \/ endswith url ".wav" = true))
    as [Hs|Hs].
  - rewrite !endswith_spec in Hs.
    rewrite (download_accepted url w Hs).
    destruct (net w (length (requests_log w)) url) as [?|r]; [done|].
    destruct (status_code r =? 200); [|done].
    by destruct (writable w (download_path w)).
  - rewrite !endswith_spec in Hs. by rewrite (download_rejected url w Hs).
Qed.

(** C3. [download_from_url(url)] raises the validation error exactly when
    [url] ends neither in ".mp3" nor in ".wav" (a suffix match character by
    character); it then leaves the world as it was, the log of GETs
    included, so no request is issued, whereas a call that passes the check
    issues the GET. *)
Theorem download_from_url_validation (url : string) (w : world) :
  ((download_from_url url w).1 = Raise (validation_error url)
   <-> ~ (has_suffix ".mp3" url \/ has_suffix ".wav" url))
  /\ (~ (has_suffix ".mp3" url \/ has_suffix ".wav" url) ->
      (download_from_url url w).2 = w
      /\ requests_log (download_from_url url w).2 = requests_log w)
  /\ (has_suffix ".mp3" url \/ has_suffix ".wav" url ->
      requests_log (download_from_url url w).2 = requests_log w ++ [url]).
Proof.
  split; [split|split].
  - intros Hr Hs. rewrite (download_accepted url w Hs) in Hr.
    destruct (net w (length (requests_log w)) url) as [?|r]; [done|].
    destruct (status_code r =? 200).
    + by destruct (writable w (download_path w)).
    + simpl in Hr. injection Hr as Hr.
      by apply (fetch_error_not_validation url url).
  - intros Hs. by rewrite (download_rejected url w Hs).
  - intros Hs. by rewrite (download_rejected url w Hs).
  - intros Hs. rewrite (download_accepted url w Hs).
    destruct (net w (length (requests_log w)) url) as [?|r]; [done|].
    destruct (status_code r =? 200); [|done].
    by destruct (writable w (download_path w)).
Qed.

(** C4. Past the extension check, [download_from_url(url)] raises the
    fetch error exactly when the server answered with a status other than
    200, and the message of that error contains the URL. *)
Theorem download_from_url_fetch_error (url : string) (w : world) :
  has_suffix ".mp3" url \/ has_suffix ".wav" url ->
  ((download_from_url url w).1 = Raise (fetch_error url)
   <-> exists r, next_response w url = Some r /\ status_code r <> 200)
  /\ exists msg, fetch_error url = ValueError msg /\ occurs_in url msg.
Proof.
  intros Hs. rewrite (download_accepted url w Hs). unfold next_response.
  split; [split|].
  - destruct (net w (length (requests_log w)) url) as [?|r]; [done|].
    destruct (Z.eqb_spec (status_code r) 200) as [E|E].
    + by destruct (writable w (download_path w)).
    + intros _. by exists r.
  - intros (r & Hr & Hne).
    destruct (net w (length (requests_log w)) url) as [?|r']; [done|].
    injection Hr as ->.
    by destruct (Z.eqb_spec (status_code r) 200).
  - eexists. split; [reflexivity|].
    exists "Failed to download file from URL: "%string, ""%string.
    f_equal. clear. induction url as [|c url IH]; [done|].
    change (String c url = String c (url +:+ "")). by rewrite <- IH.
Qed.

Lemma download_from_url_fetch_error_witness :
  (has_suffix ".mp3" "http://x/y.wav" \/ has_suffix ".wav" "http://x/y.wav")
  /\ (((download_from_url "http://x/y.wav" world_404).1
         = Raise (fetch_error "http://x/y.wav")
       <-> exists r, next_response world_404 "http://x/y.wav" = Some r
                     /\ status_code r <> 200)
      /\ exists msg, fetch_error "http://x/y.wav" = ValueError msg
                     /\ occurs_in "http://x/y.wav" msg).
Proof.
  assert (has_suffix ".mp3" "http://x/y.wav"
          \/ has_suffix ".wav" "http://x/y.wav") as H
    by (right; exists "http://x/y"%string; reflexivity).
  split; [exact H|].
  exact (download_from_url_fetch_error "http://x/y.wav" world_404 H).
Defined.

Lemma download_path_shape (w : world) :
  has_suffix "downloaded_file" (download_path w)
  /\ exists q, download_path w = tempdir w +:+ q.
Proof.
  unfold download_path, os_path_join.
  change (startswith "downloaded_file" "/") with false. cbv iota.
  destruct (String.eqb (tempdir w) "" || endswith (tempdir w) "/").
  - split; [by exists (tempdir w) | by eexists].
  - split; [|by eexists].
    exists (tempdir w +:+ "/"). by rewrite str_app_assoc.
Qed.

(** A call that returns has passed the check, got a 200, and has put the
    body at [download_path]. *)
Lemma download_returns (url : string) (w : world) (p : string) (w1 : world) :
  download_from_url url w = (Ok p, w1) ->
  (has_suffix ".mp3" url \/ has_suffix ".wav" url)
  /\ p = download_path w
  /\ tempdir w1 = tempdir w
  /\ exists r, next_response w url = Some r /\ status_code r = 200
               /\ fs w1 = <[p := content r]> (fs w).
Proof.
  intros H.
  destruct (decide (endswith url ".mp3" = true \/ endswith url ".wav" = true))
    as [Hs|Hs]; rewrite !endswith_spec in Hs.
  - split; [done|]. rewrite (download_accepted url w Hs) in H.
    unfold next_response.
    destruct (net w (length (requests_log w)) url) as [?|r]; [done|].
    destruct (Z.eqb_spec (status_code r) 200) as [E|E]; [|done].
    destruct (writable w (download_path w)); [|done].
    injection H as <- <-. simpl. split; [done|]. split; [done|].
    by exists r.
  - by rewrite (download_rejected url w Hs) in H.
Qed.

(** A call with a valid extension, a 200 answer and a writable
    destination returns [download_path]. *)
Lemma download_succeeds (url : string) (w : world) (r : response) :
  has_suffix ".mp3" url \/ has_suffix ".wav" url ->
  next_response w url = Some r -> status_code r = 200 ->
  writable w (download_path w) = true ->
  (download_from_url url w).1 = Ok (download_path w).
Proof.
  intros Hs Hr H200 Hw. rewrite (download_accepted url w Hs).
  unfold next_response in Hr.
  destruct (net w (length (requests_log w)) url) as [?|r']; [done|].
  injection Hr as ->. rewrite H200, Hw. done.
Qed.

(** C5. A call to [download_from_url] that returns had a valid extension
    and a response of status 200, has written the whole body of the
    response to one file, [downloaded_file] in the temporary directory,
    whatever was there, and returns that path; no other file changes.  A
    second call that returns writes to the same path, which then holds
    exactly the second body. *)
Theorem download_from_url_overwrites
    (url : string) (w : world) (p : string) (w1 : world) :
  download_from_url url w = (Ok p, w1) ->
  ((has_suffix ".mp3" url \/ has_suffix ".wav" url)
   /\ p = download_path w
   /\ has_suffix "downloaded_file" p
   /\ (exists q, p = tempdir w +:+ q)
   /\ exists r, next_response w url = Some r /\ status_code r = 200
        /\ fs w1 !! p = Some (content r)
        /\ forall p', p' <> p -> fs w1 !! p' = fs w !! p')
  /\ forall (url2 p2 : string) (w2 : world),
       download_from_url url2 w1 = (Ok p2, w2) ->
       p2 = p
       /\ exists r2, next_response w1 url2 = Some r2
            /\ fs w2 !! p = Some (content r2).
Proof.
  intros H.
  destruct (download_returns _ _ _ _ H) as (Hs & Hp & Ht & r & Hr & H200 & Hfs).
  split.
  - split; [done|]. split; [done|]. subst p.
    destruct (download_path_shape w) as [Hsuf Hpre].
    repeat split; try done.
    exists r. repeat split; try done.
    + rewrite Hfs. apply lookup_insert_eq.
    + intros p' Hne. rewrite Hfs. by apply lookup_insert_ne.
  - intros url2 p2 w2 H2.
    destruct (download_returns _ _ _ _ H2) as (_ & Hp2 & _ & r2 & Hr2 & _ & Hfs2).
    assert (p2 = p) as ->.
    { rewrite Hp2, Hp. unfold download_path. by rewrite Ht. }
    split; [done|]. exists r2. split; [done|].
    rewrite Hfs2. apply lookup_insert_eq.
Qed.

(** The first download of [world_two_bodies]. *)
Example first_download :
  download_from_url "http://x/y.wav" world_two_bodies
  = (Ok "/tmp/downloaded_file"%string, world_after_first).
Proof. reflexivity. Qed.

Lemma download_from_url_overwrites_witness :
  download_from_url "http://x/y.wav" world_two_bodies
  = (Ok "/tmp/downloaded_file"%string, world_after_first)
  /\ (((has_suffix ".mp3" "http://x/y.wav" \/ has_suffix ".wav" "http://x/y.wav")
       /\ "/tmp/downloaded_file"%string = download_path world_two_bodies
       /\ has_suffix "downloaded_file" "/tmp/downloaded_file"
       /\ (exists q, "/tmp/downloaded_file"%string
                     = tempdir world_two_bodies +:+ q)
       /\ exists r, next_response world_two_bodies "http://x/y.wav" = Some r
            /\ status_code r = 200
            /\ fs world_after_first !! "/tmp/downloaded_file"%string
               = Some (content r)
            /\ forall p', p' <> "/tmp/downloaded_file"%string ->
                 fs world_after_first !! p' = fs world_two_bodies !! p')
      /\ forall (url2 p2 : string) (w2 : world),
           download_from_url url2 world_after_first = (Ok p2, w2) ->
           p2 = "/tmp/downloaded_file"%string
           /\ exists r2, next_response world_after_first url2 = Some r2
                /\ fs w2 !! "/tmp/downloaded_file"%string
                   = Some (content r2)).
Proof.
  assert (download_from_url "http://x/y.wav" world_two_bodies
          = (Ok "/tmp/downloaded_file"%string, world_after_first)) as H
    by (vm_compute; reflexivity).
  split; [exact H|].
  exact (download_from_url_overwrites "http://x/y.wav" world_two_bodies
           "/tmp/downloaded_file" world_after_first H).
Defined.

(** Two downloads in a row with different bodies: the file holds the
    second body, and nothing of the first. *)
Example second_download_replaces_first :
  let w1 := (download_from_url "http://x/y.wav" world_two_bodies).2 in
  let w2 := (download_from_url "http://x/z.mp3" w1).2 in
  fs w1 !! "/tmp/downloaded_file"%string
    = Some [Byte.x52; Byte.x49; Byte.x46; Byte.x46]
  /\ (download_from_url "http://x/z.mp3" w1).1
     = Ok "/tmp/downloaded_file"%string
  /\ fs w2 !! "/tmp/downloaded_file"%string
     = Some [Byte.x49; Byte.x44; Byte.x33].
Proof. repeat split. Qed.

(** C9. When [download_from_url] raises the validation error or the fetch
    error, no file has been written: the file system is the one before the
    call, and so is what [downloaded_file] holds, if anything. *)
Theorem download_from_url_error_atomic (url : string) (w : world) :
  (download_from_url url w).1 = Raise (validation_error url)
  \/ (download_from_url url w).1 = Raise (fetch_error url) ->
  fs (download_from_url url w).2 = fs w
  /\ fs (download_from_url url w).2 !! download_path w
     = fs w !! download_path w.
Proof.
  intros H.
  assert (fs (download_from_url url w).2 = fs w) as E.
  { destruct H as [H|H]; exact (download_raise_fs _ _ _ H). }
  split; [exact E | by rewrite E].
Qed.

(** A 404 raises the fetch error. *)
Example fetch_error_on_404 :
  (download_from_url "http://x/y.wav" world_404).1
  = Raise (fetch_error "http://x/y.wav").
Proof. reflexivity. Qed.

Lemma download_from_url_error_atomic_witness :
  ((download_from_url "http://x/y.wav" world_404).1
     = Raise (validation_error "http://x/y.wav")
   \/ (download_from_url "http://x/y.wav" world_404).1
      = Raise (fetch_error "http://x/y.wav"))
  /\ (fs (download_from_url "http://x/y.wav" world_404).2 = fs world_404
      /\ fs (download_from_url "http://x/y.wav" world_404).2
           !! download_path world_404
         = fs world_404 !! download_path world_404).
Proof.
  assert ((download_from_url "http://x/y.wav" world_404).1
            = Raise (validation_error "http://x/y.wav")
          \/ (download_from_url "http://x/y.wav" world_404).1
             = Raise (fetch_error "http://x/y.wav")) as H
    by (right; vm_compute; reflexivity).
  split; [exact H|].
  exact (download_from_url_error_atomic "http://x/y.wav" world_404 H).
Defined.

(** After the failed download the earlier file is still there. *)
Example failed_download_keeps_file :
  fs (download_from_url "http://x/y.wav" world_404).2
    !! "/tmp/downloaded_file"%string
  = Some [Byte.x01; Byte.x02]
  /\ fs (download_from_url "http://x/y.txt" world_404).2
       !! "/tmp/downloaded_file"%string
     = Some [Byte.x01; Byte.x02].
Proof. split; reflexivity. Qed.

(** The example of the spec: a ".txt" URL is refused and no GET is made;
    the match is case-sensitive and sees a query string as part of the
    suffix. *)
Example txt_url_rejected :
  download_from_url "http://x/y.txt" world_404
  = (Raise (validation_error "http://x/y.txt"), world_404)
  /\ (download_from_url "http://x/y.MP3" world_404).1
     = Raise (validation_error "http://x/y.MP3")
  /\ (download_from_url "https://host/a.wav?x=1" world_404).1
     = Raise (validation_error "https://host/a.wav?x=1").
Proof. repeat split. Qed.

(* ===================================================================== *)
(** ** The prompt *)
(* ===================================================================== *)

Lemma occurs_in_concat (s : string) (l : list string) (h : string) :
  In s l -> occurs_in s (h +:+ str_concat l).
Proof.
  revert h. induction l as [|x l IH]; intros h; [done|].
  intros [->|Hin].
  - exists h, (str_concat l). reflexivity.
  - destruct (IH (h +:+ x) Hin) as (pre & post & E).
    exists pre, post. rewrite <- E. simpl. by rewrite str_app_assoc.
Qed.

Lemma occurs_in_line (t : tool) (s : string) :
  occurs_in (prompt_line t) s -> occurs_in (signature t) s.
Proof.
  intros (pre & post & ->). exists (pre +:+ "- "), (nl +:+ post).
  unfold prompt_line. by rewrite !str_app_assoc.
Qed.

(** C8. [analyze_audio] returns the same string in every world and leaves
    the world as it is; the string is the header followed by one line per
    registered tool with its signature, for the six tools [get_tempo],
    [get_beats], [get_chroma], [get_duration], [download_from_url] and
    [download_from_youtube]. *)
Theorem analyze_audio_static :
  (forall w : world, analyze_audio w = (Ok prompt_text, w))
  /\ prompt_text = prompt_header +:+ str_concat (map prompt_line tools)
  /\ map t_name tools
     = ["get_tempo"; "get_beats"; "get_chroma"; "get_duration";
        "download_from_url"; "download_from_youtube"]%string
  /\ Forall (fun t => occurs_in (signature t) prompt_text) tools.
Proof.
  assert (E : prompt_text = prompt_header +:+ str_concat (map prompt_line tools))
    by reflexivity.
  repeat split; try done.
  apply Forall_forall. intros t Ht. apply occurs_in_line. rewrite E.
  apply occurs_in_concat, in_map. by apply list_elem_of_In.
Qed.

(* ===================================================================== *)
(** ** get_chroma *)
(* ===================================================================== *)

Lemma frames_to_time_map (frames : list nat) :
  frames_to_time frames = map frame_time frames.
Proof. reflexivity. Qed.

Lemma chroma_row_app (offset interval : float) (note_name : string)
    (pairs : list (float * float)) (data_list : list chroma_sample) :
  fold_left
    (fun data_list '(t, amplitude) =>
       if keep offset interval t
       then data_list ++
            [{| note := note_name; time := t; amplitude := amplitude |}]
       else data_list)
    pairs data_list
  = data_list ++
    map (fun '(t, a) => {| note := note_name; time := t; amplitude := a |})
      (List.filter (fun '(t, _) => keep offset interval t) pairs).
Proof.
  revert data_list.
  induction pairs as [|[t a] pairs IH]; intros data_list; simpl.
  - by rewrite app_nil_r.
  - destruct (keep offset interval t); rewrite IH; [|done].
    by rewrite <- app_assoc.
Qed.

Lemma combine_time_row (c : ndarray2) (i : nat) (ks : list nat) :
  combine (map frame_time ks) (map (item c i) ks)
  = map (fun k => (frame_time k, item c i k)) ks.
Proof. induction ks as [|k ks IH]; simpl; [done | by rewrite IH]. Qed.

Lemma chroma_row_block (c : ndarray2) (offset interval : float) (i : nat)
    (note_name : string) (data_list : list chroma_sample) :
  chroma_row offset interval note_name
    (frames_to_time (np_arange (shape1 c)))
    (map (item c i) (seq 0 (shape1 c))) data_list
  = data_list ++
    map (sample_at c i note_name) (kept_frames offset interval (shape1 c)).
Proof.
  unfold chroma_row, kept_frames, np_arange.
  rewrite chroma_row_app, frames_to_time_map, combine_time_row. f_equal.
  induction (seq 0 (shape1 c)) as [|k ks IH]; simpl; [done|].
  destruct (keep offset interval (frame_time k)); simpl; by rewrite IH.
Qed.

(** The outer loop of [get_chroma] over any list of (index, name) pairs:
    when it returns, it has appended the blocks in the order of the list
    and left the world alone. *)
Lemma chroma_loop (c : ndarray2) (offset interval : float)
    (l : list (nat * string)) (acc out : list chroma_sample) (w w' : world) :
  for_in l
    (fun '(i, note_name) data_list =>
       row <- getitem c i ;;
       ret (chroma_row offset interval note_name
              (frames_to_time (np_arange (shape1 c))) row data_list))
    acc w = (Ok out, w') ->
  w' = w
  /\ out = acc ++
       flat_map
         (fun '(i, note_name) =>
            map (sample_at c i note_name)
              (kept_frames offset interval (shape1 c))) l
  /\ Forall (fun '(i, _) => (i < shape0 c)%nat) l.
Proof.
  revert acc. induction l as [|[i nm] l IH]; intros acc; simpl.
  - unfold ret. intros [= <- <-]. by rewrite app_nil_r.
  - unfold bind at 1. unfold getitem.
    destruct (Nat.ltb_spec i (shape0 c)) as [Hi|Hi]; [|done].
    unfold bind, ret at 1 2. rewrite chroma_row_block. intros H.
    destruct (IH _ H) as (-> & -> & Hall).
    split; [done|]. split; [by rewrite <- app_assoc|].
    by constructor.
Qed.

Lemma chroma_loop_total (c : ndarray2) (offset interval : float)
    (l : list (nat * string)) (acc : list chroma_sample) (w : world) :
  Forall (fun '(i, _) => (i < shape0 c)%nat) l ->
  for_in l
    (fun '(i, note_name) data_list =>
       row <- getitem c i ;;
       ret (chroma_row offset interval note_name
              (frames_to_time (np_arange (shape1 c))) row data_list))
    acc w
  = (Ok (acc ++
         flat_map
           (fun '(i, note_name) =>
              map (sample_at c i note_name)
                (kept_frames offset interval (shape1 c))) l), w).
Proof.
  intros Hall. revert acc.
  induction Hall as [|[i nm] l Hi Hall IH]; intros acc; simpl.
  - by rewrite app_nil_r.
  - unfold bind at 1. unfold getitem.
    apply Nat.ltb_lt in Hi. rewrite Hi.
    unfold bind, ret at 1 2. rewrite chroma_row_block, IH.
    by rewrite <- app_assoc.
Qed.

(** The loop raises nothing but the [IndexError] of [chroma_cq[i]]. *)
Lemma chroma_loop_raises (c : ndarray2) (offset interval : float)
    (l : list (nat * string)) (acc : list chroma_sample) (w w' : world)
    (e : exn) :
  for_in l
    (fun '(i, note_name) data_list =>
       row <- getitem c i ;;
       ret (chroma_row offset interval note_name
              (frames_to_time (np_arange (shape1 c))) row data_list))
    acc w = (Raise e, w') ->
  e = IndexError.
Proof.
  revert acc. induction l as [|[i nm] l IH]; intros acc; simpl; [done|].
  unfold bind at 1. unfold getitem.
  destruct (i <? shape0 c)%nat; [|by intros [= <- _]].
  unfold bind, ret at 1 2. apply IH.
Qed.

(** A zero divisor makes numpy's remainder a NaN, whatever the dividend,
    and the filter false. *)
Lemma keep_interval_zero (offset interval t : float) :
  is_zero interval = true ->
  np_remainder t interval = nan /\ keep offset interval t = false.
Proof.
  intros Hz. destruct interval as [s| | |]; try discriminate Hz.
  assert (np_remainder t (S754_zero s) = nan) as E by (by destruct t).
  split; [done|]. unfold keep. rewrite E. apply andb_false_r.
Qed.

Section ChromaProperties.

Variable audioread : bytes -> float -> option float -> option signal.
Variable chroma_cqt : signal -> option float -> Z -> ndarray2.

(** [get_chroma] returns exactly when the file loads and the chromagram
    has its twelve rows, and then returns [chroma_by_note]. *)
Lemma get_chroma_returns (file_path : string) (offset : float)
    (duration fmin : option float) (n_octaves : Z) (interval : float)
    (w w' : world) (out : list chroma_sample) :
  get_chroma audioread chroma_cqt file_path offset duration fmin n_octaves
    interval w = (Ok out, w') <->
  exists y, librosa_load audioread file_path offset duration w = (Ok y, w)
    /\ (12 <= shape0 (chroma_cqt y fmin n_octaves))%nat
    /\ w' = w
    /\ out = chroma_by_note (chroma_cqt y fmin n_octaves) offset interval.
Proof.
  unfold get_chroma, bind at 1.
  assert (Hl : forall y w1,
    librosa_load audioread file_path offset duration w = (Ok y, w1) -> w1 = w).
  { unfold librosa_load. intros y w1.
    destruct (fs w !! file_path) as [data|]; [|done].
    destruct (audioread data offset duration); [|done]. congruence. }
  split.
  - destruct (librosa_load audioread file_path offset duration w)
      as [[y|e] w1] eqn:El; [|done].
    pose proof (Hl y w1 eq_refl) as ->. intros H.
    apply chroma_loop in H as (-> & -> & Hall).
    exists y. repeat split; try done.
    apply Forall_forall with (x := (11%nat, "B"%string)) in Hall; [lia|].
    unfold enumerate, notes. simpl. set_solver.
  - intros (y & -> & H12 & -> & ->).
    rewrite chroma_loop_total; [done|].
    unfold enumerate, notes; simpl.
    repeat (constructor; [lia|]). constructor.
Qed.

End ChromaProperties.

Lemma keep_iff (offset interval t : float) :
  keep offset interval t = true
  <-> geb t offset = true
      /\ ltb (abs (np_remainder t interval)) lit_1e_2 = true.
Proof. unfold keep. apply andb_true_iff. Qed.

Lemma kept_frames_iff (offset interval : float) (n k : nat) :
  In k (kept_frames offset interval n)
  <-> (k < n)%nat /\ keep offset interval (frame_time k) = true.
Proof.
  unfold kept_frames. rewrite filter_In, in_seq. intuition lia.
Qed.

Lemma filter_frame_times (offset interval : float) (ks : list nat) :
  List.filter (keep offset interval) (map frame_time ks)
  = map frame_time
      (List.filter (fun k => keep offset interval (frame_time k)) ks).
Proof.
  induction ks as [|k ks IH]; simpl; [done|].
  destruct (keep offset interval (frame_time k)); simpl; by rewrite IH.
Qed.

Lemma in_enumerate_notes (i : nat) (note_name : string) :
  notes !! i = Some note_name -> In (i, note_name) (enumerate notes).
Proof.
  unfold enumerate, notes.
  do 12 (destruct i as [|i]; [intros [= <-]; simpl; tauto|]). done.
Qed.

Lemma in_chroma_by_note (c : ndarray2) (offset interval : float)
    (s : chroma_sample) :
  In s (chroma_by_note c offset interval)
  <-> exists i note_name k,
        In (i, note_name) (enumerate notes)
        /\ In k (kept_frames offset interval (shape1 c))
        /\ s = sample_at c i note_name k.
Proof.
  unfold chroma_by_note. rewrite in_flat_map. split.
  - intros ([i nm] & Hin & Hs). apply in_map_iff in Hs as (k & <- & Hk).
    by exists i, nm, k.
  - intros (i & nm & k & Hin & Hk & ->). exists (i, nm). split; [done|].
    by apply in_map.
Qed.

Lemma seq_sorted (a n : nat) : StronglySorted Nat.le (seq a n).
Proof.
  revert a. induction n as [|n IH]; intros a; simpl; constructor; [done|].
  apply List.Forall_forall. intros k Hk. apply in_seq in Hk. lia.
Qed.

(** The samples of one pitch class come in the order of the time axis,
    which is ascending. *)
Lemma block_time_sorted (c : ndarray2) (i : nat) (note_name : string)
    (offset interval : float) (ks : list nat) :
  StronglySorted Nat.le ks ->
  StronglySorted time_le
    (map (sample_at c i note_name)
       (List.filter (fun k => keep offset interval (frame_time k)) ks)).
Proof.
  induction 1 as [|k ks Hs IH Hall]; simpl; [constructor|].
  destruct (keep offset interval (frame_time k)); [|done].
  simpl. constructor; [done|].
  apply List.Forall_forall. intros s Hs'.
  apply in_map_iff in Hs' as (k' & <- & Hk').
  apply filter_In in Hk' as [Hk' _].
  rewrite List.Forall_forall in Hall.
  unfold time_le. simpl. apply frame_time_mono. by apply Hall.
Qed.

Section ChromaTheorems.

Variable audioread : bytes -> float -> option float -> option signal.
Variable chroma_cqt : signal -> option float -> Z -> ndarray2.

(** C1. For [interval > 0], when [get_chroma] returns, the sample of a
    pitch class at a frame of the chromagram is in the output exactly
    when the frame's time [t] has [t >= offset] and [abs(t % interval)]
    below [1e-2]; the output is, for each of the twelve pitch classes in
    the order C, C#, ..., B, its kept samples by ascending frame, hence
    by ascending time; so as soon as two kept frames have different
    times, a later time stands before an earlier one in the output. *)
Theorem get_chroma_filter_and_order (file_path : string) (offset : float)
    (duration fmin : option float) (n_octaves : Z) (interval : float)
    (w w' : world) (out : list chroma_sample) :
  ltb zero interval = true ->
  get_chroma audioread chroma_cqt file_path offset duration fmin n_octaves
    interval w = (Ok out, w') ->
  exists y,
    librosa_load audioread file_path offset duration w = (Ok y, w)
    /\ (forall (i : nat) (note_name : string) (k : nat),
          notes !! i = Some note_name ->
          (k < shape1 (chroma_cqt y fmin n_octaves))%nat ->
          In (sample_at (chroma_cqt y fmin n_octaves) i note_name k) out
          <-> geb (frame_time k) offset = true
              /\ ltb (abs (np_remainder (frame_time k) interval)) lit_1e_2
                 = true)
    /\ out = chroma_by_note (chroma_cqt y fmin n_octaves) offset interval
    /\ (forall (i : nat) (note_name : string),
          StronglySorted time_le
            (map (sample_at (chroma_cqt y fmin n_octaves) i note_name)
               (kept_frames offset interval
                  (shape1 (chroma_cqt y fmin n_octaves)))))
    /\ (forall k1 k2 : nat,
          In k1 (kept_frames offset interval
                   (shape1 (chroma_cqt y fmin n_octaves))) ->
          In k2 (kept_frames offset interval
                   (shape1 (chroma_cqt y fmin n_octaves))) ->
          ltb (frame_time k1) (frame_time k2) = true ->
          exists (p q : nat) (a b : chroma_sample),
            (p < q)%nat /\ out !! p = Some a /\ out !! q = Some b
            /\ ltb (time b) (time a) = true).
Proof.
  intros _ H. apply get_chroma_returns in H as (y & Hy & _ & -> & ->).
  exists y. split; [done|]. set (c := chroma_cqt y fmin n_octaves).
  split; [|split; [done|split]].
  - intros i nm k Hi Hk. rewrite in_chroma_by_note, <- keep_iff. split.
    + intros (i' & nm' & k' & _ & Hk' & E).
      apply kept_frames_iff in Hk' as [_ Hk'].
      assert (frame_time k = frame_time k') as ->; [|done].
      by injection E.
    + intros Hkeep. exists i, nm, k.
      split; [by apply in_enumerate_notes|]. split; [|done].
      by apply kept_frames_iff.
  - intros i nm. apply block_time_sorted, seq_sorted.
  - intros k1 k2 Hk1 Hk2 Hlt.
    apply list_elem_of_In, list_elem_of_lookup in Hk1 as [j1 Hj1].
    apply list_elem_of_In, list_elem_of_lookup in Hk2 as [j2 Hj2].
    set (kept := kept_frames offset interval (shape1 c)) in *.
    exists j2, (length kept + j1)%nat,
      (sample_at c 0 "C" k2), (sample_at c 1 "C#" k1).
    pose proof (lookup_lt_Some _ _ _ Hj2) as Hlen.
    split; [lia|].
    unfold chroma_by_note, enumerate, notes. simpl. fold kept.
    split; [|split; [|done]].
    * rewrite lookup_app_l by (by rewrite length_map).
      by rewrite list_lookup_fmap, Hj2.
    * rewrite lookup_app_r by (rewrite length_map; lia).
      rewrite length_map.
      replace (length kept + j1 - length kept)%nat with j1 by lia.
      rewrite lookup_app_l
        by (rewrite length_map; by apply lookup_lt_Some in Hj1).
      by rewrite list_lookup_fmap, Hj1.
Qed.

End ChromaTheorems.

(** On the example world [get_chroma] returns, whatever the offset and the
    interval. *)
Example world_audio_chroma (offset interval : float) :
  get_chroma audioread_bytes chroma_ramp "/a.wav" offset None None 7
    interval world_audio
  = (Ok (chroma_by_note (chroma_ramp (repeat zero 8) None 7) offset interval),
     world_audio).
Proof.
  apply get_chroma_returns. exists (repeat zero 8).
  split; [reflexivity|]. split; [simpl; lia|]. done.
Qed.

Lemma get_chroma_filter_and_order_witness :
  ltb zero lit_0_02 = true
  /\ get_chroma audioread_bytes chroma_ramp "/a.wav" zero None None 7
       lit_0_02 world_audio
     = (Ok (chroma_by_note (chroma_ramp (repeat zero 8) None 7) zero lit_0_02),
        world_audio)
  /\ exists y,
      librosa_load audioread_bytes "/a.wav" zero None world_audio
        = (Ok y, world_audio)
      /\ (forall (i : nat) (note_name : string) (k : nat),
            notes !! i = Some note_name ->
            (k < shape1 (chroma_ramp y None 7))%nat ->
            In (sample_at (chroma_ramp y None 7) i note_name k)
              (chroma_by_note (chroma_ramp (repeat zero 8) None 7) zero
                 lit_0_02)
            <-> geb (frame_time k) zero = true
                /\ ltb (abs (np_remainder (frame_time k) lit_0_02)) lit_1e_2
                   = true)
      /\ chroma_by_note (chroma_ramp (repeat zero 8) None 7) zero lit_0_02
         = chroma_by_note (chroma_ramp y None 7) zero lit_0_02
      /\ (forall (i : nat) (note_name : string),
            StronglySorted time_le
              (map (sample_at (chroma_ramp y None 7) i note_name)
                 (kept_frames zero lit_0_02
                    (shape1 (chroma_ramp y None 7)))))
      /\ (forall k1 k2 : nat,
            In k1 (kept_frames zero lit_0_02 (shape1 (chroma_ramp y None 7))) ->
            In k2 (kept_frames zero lit_0_02 (shape1 (chroma_ramp y None 7))) ->
            ltb (frame_time k1) (frame_time k2) = true ->
            exists (p q : nat) (a b : chroma_sample),
              (p < q)%nat
              /\ chroma_by_note (chroma_ramp (repeat zero 8) None 7) zero
                   lit_0_02 !! p = Some a
              /\ chroma_by_note (chroma_ramp (repeat zero 8) None 7) zero
                   lit_0_02 !! q = Some b
              /\ ltb (time b) (time a) = true).
Proof.
  assert (ltb zero lit_0_02 = true) as Hi by (vm_compute; reflexivity).
  assert (get_chroma audioread_bytes chroma_ramp "/a.wav" zero None None 7
            lit_0_02 world_audio
          = (Ok (chroma_by_note (chroma_ramp (repeat zero 8) None 7) zero
                   lit_0_02), world_audio)) as H
    by (vm_compute; reflexivity).
  split; [exact Hi|]. split; [exact H|].
  exact (get_chroma_filter_and_order audioread_bytes chroma_ramp "/a.wav"
           zero None None 7 lit_0_02 world_audio world_audio _ Hi H).
Defined.

(** Eight frames sampled every 0.02 s: frames 0, 1, 2, 3 and 7 pass the
    filter, frames 4, 5 and 6 do not. *)
Example kept_frames_0_02 : kept_frames zero lit_0_02 8 = [0; 1; 2; 3; 7]%nat.
Proof. vm_compute. reflexivity. Qed.

(** At the default interval of one second the frames kept among the first
    700 are not one per second: after frame 0 the next is frame 388. *)
Example kept_frames_1_0 :
  kept_frames zero (of_Z 1) 700
  = [0; 388; 431; 474; 517; 560; 603; 646]%nat.
Proof. vm_compute. reflexivity. Qed.

(** With two kept frames the output is C, C, C#, C#, ...: the times go
    0, 0.0232, 0, 0.0232, ... and are not sorted. *)
Example chroma_two_frames :
  map (fun s => (note s, time s))
    (firstn 4 (chroma_by_note (chroma_ramp (repeat zero 2) None 7) zero lit_0_02))
  = [("C", zero); ("C", frame_time 1); ("C#", zero); ("C#", frame_time 1)]%string
  /\ ltb zero (frame_time 1) = true.
Proof. vm_compute. split; reflexivity. Qed.

Lemma filter_note_block (c : ndarray2) (i : nat) (nm nm' : string)
    (ks : list nat) :
  List.filter (fun s => String.eqb (note s) nm) (map (sample_at c i nm') ks)
  = if String.eqb nm' nm then map (sample_at c i nm') ks else [].
Proof.
  induction ks as [|k ks IH]; simpl.
  - by destruct (String.eqb nm' nm).
  - rewrite IH. by destruct (String.eqb nm' nm).
Qed.

Section ChromaInvariants.

Variable audioread : bytes -> float -> option float -> option signal.
Variable chroma_cqt : signal -> option float -> Z -> ndarray2.

(** C2. When [get_chroma] returns, the list has twelve times as many
    records as there are frame times passing the filter, each pitch
    class has exactly one record per passing frame, every [note] is one
    of the twelve labels and every [time] is [>= offset]. *)
Theorem get_chroma_invariants (file_path : string) (offset : float)
    (duration fmin : option float) (n_octaves : Z) (interval : float)
    (w w' : world) (out : list chroma_sample) :
  get_chroma audioread chroma_cqt file_path offset duration fmin n_octaves
    interval w = (Ok out, w') ->
  (exists y,
     librosa_load audioread file_path offset duration w = (Ok y, w)
     /\ let time_seconds :=
          frames_to_time
            (np_arange (shape1 (chroma_cqt y fmin n_octaves))) in
        length out
        = (12 * length (List.filter (keep offset interval) time_seconds))%nat
        /\ forall note_name : string,
             In note_name notes ->
             length (List.filter
                       (fun s => String.eqb (note s) note_name) out)
             = length (List.filter (keep offset interval) time_seconds))
  /\ Forall (fun s => In (note s) notes /\ geb (time s) offset = true) out.
Proof.
  intros H. apply get_chroma_returns in H as (y & Hy & _ & -> & ->).
  set (c := chroma_cqt y fmin n_octaves). split.
  - exists y. split; [done|]. fold c. cbv zeta.
    rewrite frames_to_time_map. unfold np_arange.
    rewrite filter_frame_times, length_map.
    fold (kept_frames offset interval (shape1 c)).
    unfold chroma_by_note, enumerate, notes. cbn [length seq combine flat_map].
    split.
    + rewrite !length_app, !length_map. simpl. lia.
    + intros nm Hnm. rewrite !List.filter_app, !filter_note_block.
      cbn [In] in Hnm.
      repeat (destruct Hnm as [<-|Hnm];
              [cbn [String.eqb Ascii.eqb Bool.eqb];
               rewrite ?length_app, ?length_map; simpl; lia|]).
      done.
  - apply Forall_forall. intros s Hs.
    apply list_elem_of_In, in_chroma_by_note in Hs
      as (i & nm & k & Hin & Hk & ->).
    split.
    + simpl. unfold enumerate in Hin. by apply in_combine_r in Hin.
    + apply kept_frames_iff in Hk as [_ Hk].
      by apply keep_iff in Hk as [Hk _].
Qed.

(** C10 (amended). With [interval = 0] the time filter raises no
    [ZeroDivisionError]: [t] is a [numpy.float64], so [t % 0] is numpy's
    remainder, a NaN, and [abs(NaN) < 1e-2] is false.  Every frame is
    dropped: [get_chroma] does not raise [ZeroDivisionError], and a call
    that returns, returns the empty list. *)
Theorem get_chroma_interval_zero (file_path : string) (offset : float)
    (duration fmin : option float) (n_octaves : Z) (interval : float)
    (w : world) :
  is_zero interval = true ->
  (forall t : float,
     np_remainder t interval = nan /\ keep offset interval t = false)
  /\ (get_chroma audioread chroma_cqt file_path offset duration fmin
        n_octaves interval w).1 <> Raise ZeroDivisionError
  /\ forall (out : list chroma_sample) (w' : world),
       get_chroma audioread chroma_cqt file_path offset duration fmin
         n_octaves interval w = (Ok out, w') ->
       out = [].
Proof.
  intros Hz. split; [|split].
  - intros t. by apply keep_interval_zero.
  - unfold get_chroma, bind at 1, librosa_load.
    destruct (fs w !! file_path) as [data|]; [|done].
    destruct (audioread data offset duration) as [y|]; [|done].
    match goal with
    | |- (?loop).1 <> _ => destruct loop as [[out|e] w1] eqn:El; [done|]
    end.
    apply chroma_loop_raises in El as ->. done.
  - intros out w' H. apply get_chroma_returns in H as (y & _ & _ & _ & ->).
    unfold chroma_by_note.
    assert (kept_frames offset interval
              (shape1 (chroma_cqt y fmin n_octaves)) = []) as ->.
    { unfold kept_frames.
      induction (seq 0 (shape1 (chroma_cqt y fmin n_octaves))) as [|k ks IH];
        [done|].
      simpl. rewrite IH.
      by destruct (keep_interval_zero offset interval (frame_time k) Hz)
        as [_ ->]. }
    reflexivity.
Qed.

End ChromaInvariants.

Lemma get_chroma_invariants_witness :
  get_chroma audioread_bytes chroma_ramp "/a.wav" zero None None 7
    lit_0_02 world_audio
  = (Ok (chroma_by_note (chroma_ramp (repeat zero 8) None 7) zero lit_0_02),
     world_audio)
  /\ ((exists y,
         librosa_load audioread_bytes "/a.wav" zero None world_audio
           = (Ok y, world_audio)
         /\ let time_seconds :=
              frames_to_time (np_arange (shape1 (chroma_ramp y None 7))) in
            length (chroma_by_note (chroma_ramp (repeat zero 8) None 7) zero
                      lit_0_02)
            = (12 * length (List.filter (keep zero lit_0_02) time_seconds))%nat
            /\ forall note_name : string,
                 In note_name notes ->
                 length (List.filter
                           (fun s => String.eqb (note s) note_name)
                           (chroma_by_note (chroma_ramp (repeat zero 8) None 7)
                              zero lit_0_02))
                 = length (List.filter (keep zero lit_0_02) time_seconds))
      /\ Forall (fun s => In (note s) notes /\ geb (time s) zero = true)
           (chroma_by_note (chroma_ramp (repeat zero 8) None 7) zero lit_0_02)).
Proof.
  assert (get_chroma audioread_bytes chroma_ramp "/a.wav" zero None None 7
            lit_0_02 world_audio
          = (Ok (chroma_by_note (chroma_ramp (repeat zero 8) None 7) zero
                   lit_0_02), world_audio)) as H
    by (vm_compute; reflexivity).
  split; [exact H|].
  exact (get_chroma_invariants audioread_bytes chroma_ramp "/a.wav" zero None
           None 7 lit_0_02 world_audio world_audio _ H).
Defined.

(** Eight frames, five of them kept: sixty records. *)
Example chroma_length_60 :
  length (chroma_by_note (chroma_ramp (repeat zero 8) None 7) zero lit_0_02)
  = 60%nat.
Proof. vm_compute. reflexivity. Qed.

Lemma get_chroma_interval_zero_witness :
  is_zero zero = true
  /\ (forall t : float,
        np_remainder t zero = nan /\ keep zero zero t = false)
  /\ (get_chroma audioread_bytes chroma_ramp "/a.wav" zero None None 7 zero
        world_audio).1 <> Raise ZeroDivisionError
  /\ forall (out : list chroma_sample) (w' : world),
       get_chroma audioread_bytes chroma_ramp "/a.wav" zero None None 7 zero
         world_audio = (Ok out, w') ->
       out = [].
Proof.
  assert (is_zero zero = true) as Hz by reflexivity.
  split; [exact Hz|].
  exact (get_chroma_interval_zero audioread_bytes chroma_ramp "/a.wav" zero
           None None 7 zero world_audio Hz).
Defined.

(** On the eight frames of [world_audio] the call returns, with nothing. *)
Example chroma_interval_zero_empty :
  get_chroma audioread_bytes chroma_ramp "/a.wav" zero None None 7 zero
    world_audio = (Ok [], world_audio).
Proof. vm_compute. reflexivity. Qed.

(** The file of [world_audio] decodes, its chromagram has eight frames, all
    at times [>= 0], and [get_chroma] with [interval = 0] returns: it does
    not raise [ZeroDivisionError]. *)
Lemma get_chroma_interval_zero_no_raise :
  librosa_load audioread_bytes "/a.wav" zero None world_audio
  = (Ok (repeat zero 8), world_audio)
  /\ shape1 (chroma_ramp (repeat zero 8) None 7) = 8%nat
  /\ geb (frame_time 0) zero = true
  /\ (get_chroma audioread_bytes chroma_ramp "/a.wav" zero None None 7 zero
        world_audio).1 <> Raise ZeroDivisionError.
Proof.
  split; [reflexivity|]. split; [reflexivity|]. split; [reflexivity|].
  vm_compute. discriminate.
Qed.

(* ===================================================================== *)
(** ** get_duration *)
(* ===================================================================== *)

Section Duration.

Variable audioread : bytes -> float -> option float -> option signal.

Lemma librosa_load_pure (file_path : string) (offset : float)
    (duration : option float) (w : world) :
  (librosa_load audioread file_path offset duration w).2 = w.
Proof.
  unfold librosa_load. destruct (fs w !! file_path) as [data|]; [|done].
  by destruct (audioread data offset duration).
Qed.

(** C7. On a path that holds decodable audio, [get_duration] returns a
    value [>= 0]; it leaves the world as it found it, so a second call
    on the same path returns the same value; and it changes nothing
    either when it fails. *)
Theorem get_duration_nonneg_idempotent
    (file_path : string) (w : world) (data : bytes) (y : signal) :
  fs w !! file_path = Some data ->
  audioread data zero None = Some y ->
  (exists d,
     get_duration audioread file_path w = (Ok d, w)
     /\ geb d zero = true
     /\ get_duration audioread file_path
          (get_duration audioread file_path w).2 = (Ok d, w))
  /\ forall (path : string) (w0 : world),
       (get_duration audioread path w0).2 = w0.
Proof.
  intros Hf Hy. split.
  - exists (librosa_get_duration y).
    assert (get_duration audioread file_path w
            = (Ok (librosa_get_duration y), w)) as E.
    { unfold get_duration, bind, librosa_load. by rewrite Hf, Hy. }
    rewrite E. split; [done|]. split; [|exact E].
    apply librosa_get_duration_nonneg.
  - intros path w0. unfold get_duration, bind.
    pose proof (librosa_load_pure path zero None w0) as Hp.
    by destruct (librosa_load audioread path zero None w0) as [[?|?] ?].
Qed.

End Duration.

Lemma get_duration_nonneg_idempotent_witness :
  fs world_audio !! "/a.wav"%string = Some (repeat Byte.x00 8)
  /\ audioread_bytes (repeat Byte.x00 8) zero None = Some (repeat zero 8)
  /\ (exists d,
        get_duration audioread_bytes "/a.wav" world_audio = (Ok d, world_audio)
        /\ geb d zero = true
        /\ get_duration audioread_bytes "/a.wav"
             (get_duration audioread_bytes "/a.wav" world_audio).2
           = (Ok d, world_audio))
  /\ forall (path : string) (w0 : world),
       (get_duration audioread_bytes path w0).2 = w0.
Proof.
  assert (fs world_audio !! "/a.wav"%string = Some (repeat Byte.x00 8)) as Hf
    by (vm_compute; reflexivity).
  assert (audioread_bytes (repeat Byte.x00 8) zero None
          = Some (repeat zero 8)) as Hy by reflexivity.
  split; [exact Hf|]. split; [exact Hy|].
  exact (get_duration_nonneg_idempotent audioread_bytes "/a.wav" world_audio
           (repeat Byte.x00 8) (repeat zero 8) Hf Hy).
Defined.

(** Eight samples at 22050 Hz last 8/22050 s. *)
Example duration_of_eight_samples :
  get_duration audioread_bytes "/a.wav" world_audio
  = (Ok (div (of_Z 8) (of_Z 22050)), world_audio)
  /\ ltb zero (div (of_Z 8) (of_Z 22050)) = true.
Proof. split; reflexivity. Qed.

(* ===================================================================== *)
(** ** get_beats *)
(* ===================================================================== *)

Lemma frame_time_nonneg (k : nat) : nonneg (frame_time k).
Proof.
  unfold frame_time. rewrite of_Z_22050. apply div_nonneg, of_Z_nonneg. lia.
Qed.

Lemma frame_times_sorted (ks : list nat) :
  StronglySorted Nat.le ks ->
  StronglySorted (fun a b => leb a b = true) (map frame_time ks).
Proof.
  induction 1 as [|k ks Hs IH Hall]; simpl; [constructor|].
  constructor; [done|].
  apply List.Forall_forall. intros t Ht.
  apply in_map_iff in Ht as (k' & <- & Hk').
  rewrite List.Forall_forall in Hall. apply frame_time_mono. by apply Hall.
Qed.

(** X2. The time axis of [frames_to_time(np.arange(n))] is ascending. *)
Theorem time_axis_ascending (n : nat) :
  StronglySorted (fun a b => leb a b = true)
    (frames_to_time (np_arange n)).
Proof.
  unfold np_arange. rewrite frames_to_time_map.
  apply frame_times_sorted, seq_sorted.
Qed.

Section Analysis.

Variable audioread : bytes -> float -> option float -> option signal.
Variable beat_track : signal -> float * list nat.

(** X1. When [get_beats] returns, its times are those of the beat frames, in
    the order of the frames: none is negative, and they ascend when the
    frames do. *)
Theorem get_beats_times (file_path : string) (offset : float)
    (duration : option float) (w w' : world) (times : list float) :
  get_beats audioread beat_track file_path offset duration w = (Ok times, w') ->
  w' = w
  /\ exists y,
       librosa_load audioread file_path offset duration w = (Ok y, w)
       /\ times = map frame_time (beat_track y).2
       /\ Forall (fun t => geb t zero = true) times
       /\ (StronglySorted Nat.le (beat_track y).2 ->
           StronglySorted (fun a b => leb a b = true) times).
Proof.
  unfold get_beats, bind.
  pose proof (librosa_load_pure audioread file_path offset duration w) as Hp.
  destruct (librosa_load audioread file_path offset duration w)
    as [[y|e] w1]; [|done].
  simpl in Hp. subst w1.
  destruct (beat_track y) as [tempo frames] eqn:Eb. unfold ret.
  intros [= <- <-]. split; [done|]. exists y. split; [done|].
  rewrite frames_to_time_map, Eb. split; [done|]. split.
  - apply Forall_forall. intros t Ht.
    apply list_elem_of_In, in_map_iff in Ht as (k & <- & _).
    apply geb_zero_nonneg, frame_time_nonneg.
  - apply frame_times_sorted.
Qed.

End Analysis.

(** A beat tracker for the examples: 120 BPM, beats at frames 10, 20, 30. *)
Lemma get_beats_times_witness :
  let beat_track := fun _ : signal => (of_Z 120, [10; 20; 30]%nat) in
  get_beats audioread_bytes beat_track "/a.wav" zero None world_audio
  = (Ok (map frame_time [10; 20; 30]%nat), world_audio)
  /\ (world_audio = world_audio
      /\ exists y,
           librosa_load audioread_bytes "/a.wav" zero None world_audio
             = (Ok y, world_audio)
           /\ map frame_time [10; 20; 30]%nat
              = map frame_time (beat_track y).2
           /\ Forall (fun t => geb t zero = true)
                (map frame_time [10; 20; 30]%nat)
           /\ (StronglySorted Nat.le (beat_track y).2 ->
               StronglySorted (fun a b => leb a b = true)
                 (map frame_time [10; 20; 30]%nat))).
Proof.
  intros beat_track.
  assert (get_beats audioread_bytes beat_track "/a.wav" zero None world_audio
          = (Ok (map frame_time [10; 20; 30]%nat), world_audio)) as H
    by (vm_compute; reflexivity).
  split; [exact H|].
  exact (get_beats_times audioread_bytes beat_track "/a.wav" zero None
           world_audio world_audio _ H).
Defined.

(* ===================================================================== *)
(** ** download_from_url: what a call can and cannot do *)
(* ===================================================================== *)



Lemma str_drop_app_ge (p s : string) (n : nat) :
  str_drop (String.length p + n) (p +:+ s) = str_drop n s.
Proof. induction p as [|c p IH]; simpl; auto. Qed.

(** A suffix no longer than [url] is a suffix of [pre ++ url] exactly when
    it is one of [url]. *)
Lemma has_suffix_app (suffix pre url : string) :
  (String.length suffix <= String.length url)%nat ->
  has_suffix suffix (pre +:+ url) <-> has_suffix suffix url.
Proof.
  intros Hlen. rewrite <- !endswith_spec. unfold endswith.
  rewrite str_length_app.
  replace (String.length pre + String.length url - String.length suffix)%nat
    with (String.length pre + (String.length url - String.length suffix))%nat
    by lia.
  rewrite str_drop_app_ge.
  assert ((String.length suffix <=? String.length url)%nat = true) as ->
    by (apply Nat.leb_le; lia).
  assert ((String.length suffix <=? String.length pre + String.length url)%nat
          = true) as -> by (apply Nat.leb_le; lia).
  done.
Qed.

Lemma has_suffix_length (suffix s : string) :
  has_suffix suffix s -> (String.length suffix <= String.length s)%nat.
Proof. intros [p ->]. rewrite str_length_app. lia. Qed.

Lemma download_validation_iff (url : string) (w : world) :
  (download_from_url url w).1 = Raise (validation_error url)
  <-> ~ (has_suffix ".mp3" url \/ has_suffix ".wav" url).
Proof.
  split.
  - intros Hr Hs. rewrite (download_accepted url w Hs) in Hr.
    destruct (net w (length (requests_log w)) url) as [?|r]; [done|].
    destruct (status_code r =? 200).
    + by destruct (writable w (download_path w)).
    + simpl in Hr. injection Hr as Hr.
      by apply (fetch_error_not_validation url url).
  - intros Hs. by rewrite (download_rejected url w Hs).
Qed.

(** X5. The extension check looks at the last four characters and at nothing
    else: a string of fewer than four characters is refused, without a
    request, and putting anything in front of a string of four characters
    or more changes nothing to its being refused. *)
Theorem extension_check_last_four (pre url : string) (w w' : world) :
  ((String.length url < 4)%nat ->
   download_from_url url w = (Raise (validation_error url), w))
  /\ ((4 <= String.length url)%nat ->
      (download_from_url (pre +:+ url) w).1
        = Raise (validation_error (pre +:+ url))
      <-> (download_from_url url w').1 = Raise (validation_error url)).
Proof.
  split.
  - intros Hlen. apply download_rejected.
    intros [H|H]; apply has_suffix_length in H; simpl in H; lia.
  - intros Hlen. rewrite !download_validation_iff.
    by rewrite !(has_suffix_app _ pre url) by (simpl; lia).
Qed.

(** X6. Two downloads in a row that get the same body leave the file system
    after the second as it was after the first, at the same path. *)
Theorem download_twice_same_body (url url2 p p2 : string) (w w1 w2 : world)
    (r r2 : response) :
  download_from_url url w = (Ok p, w1) ->
  download_from_url url2 w1 = (Ok p2, w2) ->
  next_response w url = Some r ->
  next_response w1 url2 = Some r2 ->
  content r = content r2 ->
  p2 = p /\ fs w2 = fs w1.
Proof.
  intros H1 H2 Hr Hr2 Hc.
  destruct (download_returns _ _ _ _ H1) as (_ & Hp & Ht & r' & Hr' & _ & Hfs).
  destruct (download_returns _ _ _ _ H2)
    as (_ & Hp2 & _ & r2' & Hr2' & _ & Hfs2).
  assert (r' = r) as -> by congruence.
  assert (r2' = r2) as -> by congruence.
  assert (p2 = p) as ->.
  { rewrite Hp2, Hp. unfold download_path. by rewrite Ht. }
  split; [done|]. rewrite Hfs2, Hfs, <- Hc. apply insert_insert_eq.
Qed.

Lemma download_twice_same_body_witness :
  download_from_url "http://x/y.wav" world_same_body
  = (Ok "/tmp/downloaded_file"%string, world_same_body_1)
  /\ download_from_url "http://x/z.mp3" world_same_body_1
     = (Ok "/tmp/downloaded_file"%string, world_same_body_2)
  /\ next_response world_same_body "http://x/y.wav"
     = Some {| status_code := 200;
               content := [Byte.x52; Byte.x49; Byte.x46; Byte.x46] |}
  /\ next_response world_same_body_1 "http://x/z.mp3"
     = Some {| status_code := 200;
               content := [Byte.x52; Byte.x49; Byte.x46; Byte.x46] |}
  /\ [Byte.x52; Byte.x49; Byte.x46; Byte.x46]
     = [Byte.x52; Byte.x49; Byte.x46; Byte.x46]
  /\ ("/tmp/downloaded_file"%string = "/tmp/downloaded_file"%string
      /\ fs world_same_body_2 = fs world_same_body_1).
Proof.
  assert (download_from_url "http://x/y.wav" world_same_body
          = (Ok "/tmp/downloaded_file"%string, world_same_body_1)) as H1
    by (vm_compute; reflexivity).
  assert (download_from_url "http://x/z.mp3" world_same_body_1
          = (Ok "/tmp/downloaded_file"%string, world_same_body_2)) as H2
    by (vm_compute; reflexivity).
  assert (next_response world_same_body "http://x/y.wav"
          = Some {| status_code := 200;
                    content := [Byte.x52; Byte.x49; Byte.x46; Byte.x46] |})
    as Hr by reflexivity.
  assert (next_response world_same_body_1 "http://x/z.mp3"
          = Some {| status_code := 200;
                    content := [Byte.x52; Byte.x49; Byte.x46; Byte.x46] |})
    as Hr2 by reflexivity.
  split; [exact H1|]. split; [exact H2|]. split; [exact Hr|].
  split; [exact Hr2|]. split; [reflexivity|].
  exact (download_twice_same_body _ _ _ _ _ _ _ _ _ H1 H2 Hr Hr2 eq_refl).
Defined.

(* ===================================================================== *)
(** ** A download followed by get_duration *)
(* ===================================================================== *)

Section DownloadThenAnalyse.

Variable audioread : bytes -> float -> option float -> option signal.

(** X9. The path a download returns is a handle on the latest download:
    when the body decodes, [get_duration] on that path gives the duration
    of the body just written; after a later download the same path gives
    the duration of the later body. *)
Theorem download_then_get_duration (url p : string) (w w1 : world) :
  download_from_url url w = (Ok p, w1) ->
  exists r : response,
    next_response w url = Some r
    /\ (forall y : signal,
          audioread (content r) zero None = Some y ->
          get_duration audioread p w1 = (Ok (librosa_get_duration y), w1))
    /\ forall (url2 p2 : string) (w2 : world),
         download_from_url url2 w1 = (Ok p2, w2) ->
         exists r2 : response,
           next_response w1 url2 = Some r2
           /\ forall y2 : signal,
                audioread (content r2) zero None = Some y2 ->
                get_duration audioread p w2
                = (Ok (librosa_get_duration y2), w2).
Proof.
  intros H.
  destruct (download_returns _ _ _ _ H) as (_ & Hp & Ht & r & Hr & _ & Hfs).
  exists r. split; [done|]. split.
  - intros y Hy. unfold get_duration, bind, librosa_load.
    by rewrite Hfs, lookup_insert_eq, Hy.
  - intros url2 p2 w2 H2.
    destruct (download_returns _ _ _ _ H2)
      as (_ & Hp2 & _ & r2 & Hr2 & _ & Hfs2).
    assert (p2 = p) as ->.
    { rewrite Hp2, Hp. unfold download_path. by rewrite Ht. }
    exists r2. split; [done|]. intros y2 Hy2.
    unfold get_duration, bind, librosa_load.
    by rewrite Hfs2, lookup_insert_eq, Hy2.
Qed.

End DownloadThenAnalyse.

Lemma download_then_get_duration_witness :
  download_from_url "http://x/y.wav" world_two_bodies
  = (Ok "/tmp/downloaded_file"%string, world_after_first)
  /\ exists r : response,
       next_response world_two_bodies "http://x/y.wav" = Some r
       /\ (forall y : signal,
             audioread_bytes (content r) zero None = Some y ->
             get_duration audioread_bytes "/tmp/downloaded_file"
               world_after_first
             = (Ok (librosa_get_duration y), world_after_first))
       /\ forall (url2 p2 : string) (w2 : world),
            download_from_url url2 world_after_first = (Ok p2, w2) ->
            exists r2 : response,
              next_response world_after_first url2 = Some r2
              /\ forall y2 : signal,
                   audioread_bytes (content r2) zero None = Some y2 ->
                   get_duration audioread_bytes "/tmp/downloaded_file" w2
                   = (Ok (librosa_get_duration y2), w2).
Proof.
  assert (download_from_url "http://x/y.wav" world_two_bodies
          = (Ok "/tmp/downloaded_file"%string, world_after_first)) as H
    by (vm_compute; reflexivity).
  split; [exact H|].
  exact (download_then_get_duration audioread_bytes "http://x/y.wav"
           "/tmp/downloaded_file" world_two_bodies world_after_first H).
Defined.

(** Four samples after the first download, three after the second, at the
    same path. *)
Example durations_after_two_downloads :
  get_duration audioread_bytes "/tmp/downloaded_file" world_after_first
  = (Ok (div (of_Z 4) (of_Z 22050)), world_after_first)
  /\ ((p <- download_from_url "http://x/z.mp3" ;;
       get_duration audioread_bytes p) world_after_first).1
     = Ok (div (of_Z 3) (of_Z 22050)).
Proof. split; vm_compute; reflexivity. Qed.

(* ===================================================================== *)
(** ** get_chroma: the layout of the output and the two uses of offset *)
(* ===================================================================== *)

Ltac order_cases :=
  repeat match goal with
  | |- context [Z.compare ?x ?y] => destruct (Z.compare_spec x y)
  | |- context [Pos.compare_cont Eq ?x ?y] =>
      change (Pos.compare_cont Eq x y) with (Pos.compare x y)
  | |- context [Pos.compare ?x ?y] => destruct (Pos.compare_spec x y)
  | s : bool |- _ => destruct s
  end; simpl; try discriminate; try reflexivity; try (intros; lia).

(** [<=] on binary64 is transitive, NaN included: a comparison with a NaN
    is false. *)
Lemma leb_trans (a b c : float) :
  leb a b = true -> leb b c = true -> leb a c = true.
Proof.
  unfold leb, SFleb, SFcompare.
  destruct a as [sa|sa| |sa ma ea], b as [sb|sb| |sb mb eb],
           c as [sc|sc| |sc mc ec]; order_cases.
  all: intros; subst; try lia; try discriminate.
Qed.

Lemma ltb_not_geb (a b : float) : ltb a b = true -> geb a b = false.
Proof.
  unfold geb, leb, ltb, SFleb, SFltb, SFcompare.
  destruct a as [sa|sa| |sa ma ea], b as [sb|sb| |sb mb eb]; order_cases.
  all: intros; subst; try lia; try discriminate.
Qed.

(** A frame not later than one that is before [offset] is dropped. *)
Lemma keep_before_offset (offset interval : float) (k n : nat) :
  (k <= n)%nat -> ltb (frame_time n) offset = true ->
  keep offset interval (frame_time k) = false.
Proof.
  intros Hk Hn. unfold keep.
  destruct (geb (frame_time k) offset) eqn:Hg; [exfalso|done].
  apply ltb_not_geb in Hn. unfold geb in *.
  by rewrite (leb_trans _ _ _ Hg (frame_time_mono k n Hk)) in Hn.
Qed.

Lemma kept_frames_nil (offset interval : float) (n : nat) :
  (forall k, (k < n)%nat -> keep offset interval (frame_time k) = false) ->
  kept_frames offset interval n = [].
Proof.
  intros H. unfold kept_frames.
  destruct (List.filter _ (seq 0 n)) as [|k ks] eqn:E; [done|exfalso].
  assert (In k (kept_frames offset interval n)) as Hin
    by (unfold kept_frames; rewrite E; by left).
  apply kept_frames_iff in Hin as [Hk Hkeep]. by rewrite H in Hkeep.
Qed.

(** Frame 0 is at time [0.0]: it passes the filter for every offset [<= 0]
    and every interval that is neither zero nor a NaN. *)
Lemma keep_frame_zero (offset interval : float) :
  geb zero offset = true -> is_zero interval = false -> interval <> nan ->
  keep offset interval (frame_time 0) = true.
Proof.
  intros Ho Hz Hn. unfold keep.
  change (frame_time 0) with zero. rewrite Ho.
  destruct interval as [s|s| |s m e]; [done| |done|]; by destruct s.
Qed.

Lemma kept_frames_head (offset interval : float) (n : nat) :
  (0 < n)%nat -> keep offset interval (frame_time 0) = true ->
  exists ks, kept_frames offset interval n = 0%nat :: ks.
Proof.
  intros Hn Hk. destruct n as [|n]; [lia|].
  unfold kept_frames. simpl. rewrite Hk. by eexists.
Qed.

Lemma enumerate_notes_lookup (i : nat) (note_name : string) :
  notes !! i = Some note_name -> enumerate notes !! i = Some (i, note_name).
Proof.
  unfold enumerate, notes.
  do 12 (destruct i as [|i]; [by intros [= <-]|]). done.
Qed.

(** The element [j] of block [i] of a [flat_map] whose blocks all have
    length [n] is at index [i * n + j]. *)
Lemma flat_map_lookup {A B} (f : A -> list B) (l : list A) (n i j : nat)
    (a : A) (b : B) :
  (forall x, In x l -> length (f x) = n) ->
  l !! i = Some a -> f a !! j = Some b ->
  flat_map f l !! (i * n + j)%nat = Some b.
Proof.
  revert i. induction l as [|x l IH]; intros i Hlen Hi Hj; [done|].
  simpl. destruct i as [|i].
  - injection Hi as ->. simpl.
    rewrite lookup_app_l; [done|]. by eapply lookup_lt_Some.
  - simpl in Hi. rewrite lookup_app_r by (rewrite Hlen by (by left); simpl; lia).
    rewrite Hlen by (by left).
    replace (S i * n + j - n)%nat with (i * n + j)%nat by (simpl; lia).
    apply IH; [|done|done]. intros y Hy. apply Hlen. by right.
Qed.

Section ChromaLayout.

Variable audioread : bytes -> float -> option float -> option signal.
Variable chroma_cqt : signal -> option float -> Z -> ndarray2.

(** X10. [offset] is used twice: the loader skips that many seconds, and
    the filter compares it with times counted from the start of what was
    loaded.  So when the last frame of the loaded segment is before
    [offset] on that clock, [get_chroma] returns the empty list, whatever
    the interval. *)
Theorem get_chroma_offset_past_segment (file_path : string) (offset : float)
    (duration fmin : option float) (n_octaves : Z) (interval : float)
    (w : world) (y : signal) :
  librosa_load audioread file_path offset duration w = (Ok y, w) ->
  (12 <= shape0 (chroma_cqt y fmin n_octaves))%nat ->
  ltb (frame_time (shape1 (chroma_cqt y fmin n_octaves) - 1)) offset = true ->
  get_chroma audioread chroma_cqt file_path offset duration fmin n_octaves
    interval w = (Ok [], w).
Proof.
  intros Hy H12 Hlast. apply get_chroma_returns. exists y.
  repeat split; try done.
  unfold chroma_by_note. rewrite kept_frames_nil; [done|].
  intros k Hk. eapply keep_before_offset; [|exact Hlast]. lia.
Qed.

(** X11. With an offset [<= 0] and an interval that is neither zero nor a
    NaN, frame 0 always passes the filter: when [get_chroma] returns on a
    chromagram with at least one frame, the list starts with the sample
    of C at time [0.0] and holds the sample of every pitch class at
    frame 0. *)
Theorem get_chroma_first_frame (file_path : string) (offset : float)
    (duration fmin : option float) (n_octaves : Z) (interval : float)
    (w w' : world) (out : list chroma_sample) :
  get_chroma audioread chroma_cqt file_path offset duration fmin n_octaves
    interval w = (Ok out, w') ->
  geb zero offset = true -> is_zero interval = false -> interval <> nan ->
  exists y,
    librosa_load audioread file_path offset duration w = (Ok y, w)
    /\ let c := chroma_cqt y fmin n_octaves in
       (0 < shape1 c)%nat ->
       head out = Some {| note := "C"; time := zero; amplitude := item c 0 0 |}
       /\ forall (i : nat) (note_name : string),
            notes !! i = Some note_name ->
            In {| note := note_name; time := zero; amplitude := item c i 0 |}
               out.
Proof.
  intros H Ho Hz Hn. apply get_chroma_returns in H as (y & Hy & _ & -> & ->).
  exists y. split; [done|]. intros c Hc.
  pose proof (keep_frame_zero offset interval Ho Hz Hn) as Hk. split.
  - destruct (kept_frames_head offset interval (shape1 c) Hc Hk) as [ks E].
    unfold chroma_by_note, enumerate, notes. fold c.
    cbn [length seq combine flat_map]. by rewrite E.
  - intros i nm Hi. apply in_chroma_by_note. exists i, nm, 0%nat.
    split; [by apply in_enumerate_notes|]. split; [|done].
    by apply kept_frames_iff.
Qed.

(** X12. The output is laid out pitch class by pitch class: with [n]
    frames kept, the record of the pitch class of index [i] at the [j]-th
    kept frame is at index [i * n + j]. *)
Theorem get_chroma_row_major (file_path : string) (offset : float)
    (duration fmin : option float) (n_octaves : Z) (interval : float)
    (w w' : world) (out : list chroma_sample) :
  get_chroma audioread chroma_cqt file_path offset duration fmin n_octaves
    interval w = (Ok out, w') ->
  exists y,
    librosa_load audioread file_path offset duration w = (Ok y, w)
    /\ let c := chroma_cqt y fmin n_octaves in
       let kept := kept_frames offset interval (shape1 c) in
       forall (i j k : nat) (note_name : string),
         notes !! i = Some note_name -> kept !! j = Some k ->
         out !! (i * length kept + j)%nat
         = Some {| note := note_name; time := frame_time k;
                   amplitude := item c i k |}.
Proof.
  intros H. apply get_chroma_returns in H as (y & Hy & _ & -> & ->).
  exists y. split; [done|]. intros c kept i j k nm Hi Hj.
  unfold chroma_by_note. fold c. fold kept.
  apply flat_map_lookup with (a := (i, nm)).
  - intros [i' nm'] _. by rewrite length_map.
  - by apply enumerate_notes_lookup.
  - change (map ?f ?l) with (f <$> l). by rewrite list_lookup_fmap, Hj.
Qed.

End ChromaLayout.

Lemma get_chroma_offset_past_segment_witness :
  librosa_load audioread_bytes "/a.wav" (of_Z 1) None world_audio
  = (Ok (repeat zero 8), world_audio)
  /\ (12 <= shape0 (chroma_ramp (repeat zero 8) None 7))%nat
  /\ ltb (frame_time (shape1 (chroma_ramp (repeat zero 8) None 7) - 1))
       (of_Z 1) = true
  /\ get_chroma audioread_bytes chroma_ramp "/a.wav" (of_Z 1) None None 7
       lit_0_02 world_audio = (Ok [], world_audio).
Proof.
  assert (librosa_load audioread_bytes "/a.wav" (of_Z 1) None world_audio
          = (Ok (repeat zero 8), world_audio)) as Hy
    by (vm_compute; reflexivity).
  assert (12 <= shape0 (chroma_ramp (repeat zero 8) None 7))%nat as H12
    by (simpl; lia).
  assert (ltb (frame_time (shape1 (chroma_ramp (repeat zero 8) None 7) - 1))
            (of_Z 1) = true) as Hlast
    by (vm_compute; reflexivity).
  split; [exact Hy|]. split; [exact H12|]. split; [exact Hlast|].
  exact (get_chroma_offset_past_segment audioread_bytes chroma_ramp "/a.wav"
           (of_Z 1) None None 7 lit_0_02 world_audio (repeat zero 8)
           Hy H12 Hlast).
Defined.

(** The same file with [offset = 0] gives sixty records; the eight frames
    span 0.16 s, so an offset of one second leaves none. *)
Example last_frame_before_one_second :
  frame_time 7 = div (of_Z 3584) (of_Z 22050)
  /\ ltb (frame_time 7) (of_Z 1) = true.
Proof. split; reflexivity. Qed.

Lemma get_chroma_first_frame_witness :
  get_chroma audioread_bytes chroma_ramp "/a.wav" zero None None 7
    lit_0_02 world_audio
  = (Ok (chroma_by_note (chroma_ramp (repeat zero 8) None 7) zero lit_0_02),
     world_audio)
  /\ geb zero zero = true /\ is_zero lit_0_02 = false /\ lit_0_02 <> nan
  /\ exists y,
       librosa_load audioread_bytes "/a.wav" zero None world_audio
       = (Ok y, world_audio)
       /\ let c := chroma_ramp y None 7 in
          (0 < shape1 c)%nat ->
          head (chroma_by_note (chroma_ramp (repeat zero 8) None 7) zero
                  lit_0_02)
          = Some {| note := "C"; time := zero; amplitude := item c 0 0 |}
          /\ forall (i : nat) (note_name : string),
               notes !! i = Some note_name ->
               In {| note := note_name; time := zero;
                     amplitude := item c i 0 |}
                  (chroma_by_note (chroma_ramp (repeat zero 8) None 7) zero
                     lit_0_02).
Proof.
  assert (get_chroma audioread_bytes chroma_ramp "/a.wav" zero None None 7
            lit_0_02 world_audio
          = (Ok (chroma_by_note (chroma_ramp (repeat zero 8) None 7) zero
                   lit_0_02), world_audio)) as H
    by (vm_compute; reflexivity).
  assert (geb zero zero = true) as Ho by reflexivity.
  assert (is_zero lit_0_02 = false) as Hz by reflexivity.
  assert (lit_0_02 <> nan) as Hn by (vm_compute; discriminate).
  split; [exact H|]. split; [exact Ho|]. split; [exact Hz|].
  split; [exact Hn|].
  exact (get_chroma_first_frame audioread_bytes chroma_ramp "/a.wav" zero None
           None 7 lit_0_02 world_audio world_audio _ H Ho Hz Hn).
Defined.

Lemma get_chroma_row_major_witness :
  get_chroma audioread_bytes chroma_ramp "/a.wav" zero None None 7
    lit_0_02 world_audio
  = (Ok (chroma_by_note (chroma_ramp (repeat zero 8) None 7) zero lit_0_02),
     world_audio)
  /\ exists y,
       librosa_load audioread_bytes "/a.wav" zero None world_audio
       = (Ok y, world_audio)
       /\ let c := chroma_ramp y None 7 in
          let kept := kept_frames zero lit_0_02 (shape1 c) in
          forall (i j k : nat) (note_name : string),
            notes !! i = Some note_name -> kept !! j = Some k ->
            chroma_by_note (chroma_ramp (repeat zero 8) None 7) zero lit_0_02
              !! (i * length kept + j)%nat
            = Some {| note := note_name; time := frame_time k;
                      amplitude := item c i k |}.
Proof.
  assert (get_chroma audioread_bytes chroma_ramp "/a.wav" zero None None 7
            lit_0_02 world_audio
          = (Ok (chroma_by_note (chroma_ramp (repeat zero 8) None 7) zero
                   lit_0_02), world_audio)) as H
    by (vm_compute; reflexivity).
  split; [exact H|].
  exact (get_chroma_row_major audioread_bytes chroma_ramp "/a.wav" zero None
           None 7 lit_0_02 world_audio world_audio _ H).
Defined.

(** Five frames kept out of eight: the record of D (index 2) at the last
    kept frame, frame 7, is at index 2 * 5 + 4. *)
Example chroma_index_14 :
  chroma_by_note (chroma_ramp (repeat zero 8) None 7) zero lit_0_02 !! 14%nat
  = Some {| note := "D"; time := frame_time 7; amplitude := of_Z 9 |}.
Proof. vm_compute. reflexivity. Qed.

(* ===================================================================== *)
(** ** get_duration and the number of samples *)
(* ===================================================================== *)

(** [float(n) / 22050.0] is positive for [n > 0]: it does not underflow. *)
Lemma of_Z_div_22050_pos (n : Z) :
  0 < n -> ltb zero (div (of_Z n) (of_Z 22050)) = true.
Proof.
  intros Hn. rewrite of_Z_22050.
  destruct (of_Z_rounded n Hn) as (m & e & He & (_ & Hm & _) & ->).
  destruct (canon_cases m e Hm) as [->|(p & x & -> & Hp & Hx)]; [done|].
  destruct (div_22050_rounded p x Hp ltac:(lia)) as (q & y & (_ & Hq & _) & ->).
  by destruct (canon_cases q y Hq) as [->|(p' & x' & -> & _)].
Qed.

(** [float(n) / 22050.0] is monotone in [n], roundings included. *)
Lemma of_Z_div_22050_mono (n1 n2 : Z) :
  0 <= n1 <= n2 ->
  leb (div (of_Z n1) (of_Z 22050)) (div (of_Z n2) (of_Z 22050)) = true.
Proof.
  intros Hn. destruct (Z.eq_dec n1 0) as [->|Hn1].
  - destruct (Z.eq_dec n2 0) as [->|Hn2]; [done|].
    pose proof (of_Z_div_22050_pos n2 ltac:(lia)) as Hpos.
    change (div (of_Z 0) (of_Z 22050)) with zero.
    unfold ltb, SFltb in Hpos. unfold leb, SFleb.
    by destruct (SFcompare zero (div (of_Z n2) (of_Z 22050))) as [[]|].
  - rewrite of_Z_22050. destruct (Z.eq_dec n1 n2) as [->|Hne].
    + destruct (of_Z_rounded n2 ltac:(lia)) as (m & e & He & (_ & Hm & _) & ->).
      apply div_22050_mono; try done. apply canon_le; lia.
    + destruct (of_Z_rounded n1 ltac:(lia)) as (m1 & e1 & He1 & Hr1 & ->).
      destruct (of_Z_rounded n2 ltac:(lia)) as (m2 & e2 & He2 & Hr2 & ->).
      pose proof Hr1 as (_ & Hm1 & _). pose proof Hr2 as (_ & Hm2 & _).
      apply div_22050_mono; try done.
      apply canon_le; try lia.
      eapply rounded_mono; [|exact Hr1|exact Hr2|]; [lia|].
      apply Z.mul_lt_mono_pos_r; [apply weight_pos|]; lia.
Qed.

Section DurationOrder.

Variable audioread : bytes -> float -> option float -> option signal.

(** X13. The duration follows the number of decoded samples: it is [0.0]
    for a signal with no sample and positive for any other, and of two
    files the one with no more samples than the other has a duration no
    longer, the roundings of [float(n) / 22050] included. *)
Theorem get_duration_sample_count (path1 path2 : string) (w : world)
    (data1 data2 : bytes) (y1 y2 : signal) :
  fs w !! path1 = Some data1 -> audioread data1 zero None = Some y1 ->
  fs w !! path2 = Some data2 -> audioread data2 zero None = Some y2 ->
  exists d1 d2 : float,
    get_duration audioread path1 w = (Ok d1, w)
    /\ get_duration audioread path2 w = (Ok d2, w)
    /\ (y1 = [] -> d1 = zero)
    /\ (y1 <> [] -> ltb zero d1 = true)
    /\ ((length y1 <= length y2)%nat -> leb d1 d2 = true).
Proof.
  intros Hf1 Hy1 Hf2 Hy2.
  exists (librosa_get_duration y1), (librosa_get_duration y2).
  unfold get_duration, bind, librosa_load. rewrite Hf1, Hy1, Hf2, Hy2.
  split; [done|]. split; [done|]. unfold librosa_get_duration.
  split; [by intros ->|]. split.
  - intros Hne. apply of_Z_div_22050_pos. destruct y1; [done|]. simpl. lia.
  - intros Hle. apply of_Z_div_22050_mono. lia.
Qed.

End DurationOrder.

Lemma get_duration_sample_count_witness :
  fs world_two_files !! "/a.wav"%string = Some (repeat Byte.x00 8)
  /\ audioread_bytes (repeat Byte.x00 8) zero None = Some (repeat zero 8)
  /\ fs world_two_files !! "/b.wav"%string = Some (repeat Byte.x00 16)
  /\ audioread_bytes (repeat Byte.x00 16) zero None = Some (repeat zero 16)
  /\ exists d1 d2 : float,
       get_duration audioread_bytes "/a.wav" world_two_files
       = (Ok d1, world_two_files)
       /\ get_duration audioread_bytes "/b.wav" world_two_files
          = (Ok d2, world_two_files)
       /\ (repeat zero 8 = [] -> d1 = zero)
       /\ (repeat zero 8 <> [] -> ltb zero d1 = true)
       /\ ((length (repeat zero 8) <= length (repeat zero 16))%nat ->
           leb d1 d2 = true).
Proof.
  assert (fs world_two_files !! "/a.wav"%string = Some (repeat Byte.x00 8))
    as Hf1 by (vm_compute; reflexivity).
  assert (audioread_bytes (repeat Byte.x00 8) zero None
          = Some (repeat zero 8)) as Hy1 by reflexivity.
  assert (fs world_two_files !! "/b.wav"%string = Some (repeat Byte.x00 16))
    as Hf2 by (vm_compute; reflexivity).
  assert (audioread_bytes (repeat Byte.x00 16) zero None
          = Some (repeat zero 16)) as Hy2 by reflexivity.
  split; [exact Hf1|]. split; [exact Hy1|].
  split; [exact Hf2|]. split; [exact Hy2|].
  exact (get_duration_sample_count audioread_bytes "/a.wav" "/b.wav"
           world_two_files _ _ _ _ Hf1 Hy1 Hf2 Hy2).
Defined.

(** Eight samples against sixteen. *)
Example durations_of_two_files :
  get_duration audioread_bytes "/a.wav" world_two_files
  = (Ok (div (of_Z 8) (of_Z 22050)), world_two_files)
  /\ get_duration audioread_bytes "/b.wav" world_two_files
     = (Ok (div (of_Z 16) (of_Z 22050)), world_two_files)
  /\ ltb (div (of_Z 8) (of_Z 22050)) (div (of_Z 16) (of_Z 22050)) = true.
Proof. split; [|split]; vm_compute; reflexivity. Qed.
